(** * phable: the Phabricator API client (src/phable_cli/phabricator.py)

    A shallow embedding of [PhabricatorClient] and the properties of its
    request encoding, response validation, lookups and memoisation.

    - Python values are the inductive [pyval]; JSON numbers with a
      fractional part are outside the model, and a string is a sequence
      of 8-bit characters.
    - A Python [dict] keeps insertion order, so it is an association list
      with unique keys maintained by [Dict.set].
    - The remote service is an oracle [remote] from the history of requests
      and the current request to the outcome of [session.post]; every call
      of [session.post] is appended to the log of the [world].
    - Exceptions are values of [exn]; a method is a function from a world to
      a [result] and the next world. *)

From stdpp Require Import base strings list gmap.
From Stdlib Require Import ZArith Ascii DecimalString DecimalNat.

Set Warnings "-register-all".
Local Open Scope string_scope.
Local Open Scope list_scope.
Local Open Scope nat_scope.

(** ** Python values *)

Inductive pyval : Type :=
| PNone
| PBool (b : bool)
| PInt (z : Z)
| PStr (s : string)
| PList (l : list pyval)
| PDict (d : list (string * pyval)).

(** [bool(v)]: None, False, 0, the empty string, list and dict are falsy. *)
Definition truthy (v : pyval) : bool :=
  match v with
  | PNone => false
  | PBool b => b
  | PInt z => negb (Z.eqb z 0)
  | PStr s => negb (String.eqb s "")
  | PList l => match l with [] => false | _ => true end
  | PDict d => match d with [] => false | _ => true end
  end.

(** ** Dictionaries, in insertion order *)

Module Dict.

Definition t (V : Type) : Type := list (string * V).

Fixpoint get {V} (k : string) (d : t V) : option V :=
  match d with
  | [] => None
  | (k', v) :: d' => if String.eqb k k' then Some v else get k d'
  end.

(** [d[k] = v]: an existing key keeps its position, a new one goes last. *)
Fixpoint set {V} (k : string) (v : V) (d : t V) : t V :=
  match d with
  | [] => [(k, v)]
  | (k', v') :: d' =>
      if String.eqb k k' then (k', v) :: d' else (k', v') :: set k v d'
  end.

(** [d |= other] *)
Definition update {V} (d other : t V) : t V :=
  fold_left (fun acc kv => set (fst kv) (snd kv) acc) other d.

Definition keys {V} (d : t V) : list string := map fst d.

End Dict.

(** ** Formatted keys *)

(** [f"{i}"] for a non-negative index. *)
Definition dec (n : nat) : string := NilEmpty.string_of_uint (Nat.to_uint n).

Definition transaction_type_key (i : nat) : string :=
  "transactions[" +:+ dec i +:+ "][type]".

Definition transaction_value_key (i : nat) : string :=
  "transactions[" +:+ dec i +:+ "][value]".

Definition transaction_subvalue_key (i j : nat) : string :=
  "transactions[" +:+ dec i +:+ "][value][" +:+ dec j +:+ "]".

Definition phids_constraint_key (i : nat) : string :=
  "constraints[phids][" +:+ dec i +:+ "]".

(** ** Parameter encoding of [create_or_edit_task] and [show_projects] *)

(** The inner loop, lines 74-75, started at index [j]. *)
Fixpoint set_subvalues (i j : nat) (value : list pyval)
    (raw_params : Dict.t pyval) : Dict.t pyval :=
  match value with
  | [] => raw_params
  | subvalue :: rest =>
      set_subvalues i (S j) rest
        (Dict.set (transaction_subvalue_key i j) subvalue raw_params)
  end.

(** One iteration of the outer loop, lines 72-77. *)
Definition set_transaction (i : nat) (key : string) (value : pyval)
    (raw_params : Dict.t pyval) : Dict.t pyval :=
  let raw_params := Dict.set (transaction_type_key i) (PStr key) raw_params in
  match value with
  | PList l => set_subvalues i 0 l raw_params
  | _ => Dict.set (transaction_value_key i) value raw_params
  end.

(** The outer loop, line 71, started at index [i]. *)
Fixpoint set_transactions (i : nat) (items : list (string * pyval))
    (raw_params : Dict.t pyval) : Dict.t pyval :=
  match items with
  | [] => raw_params
  | (key, value) :: rest =>
      set_transactions (S i) rest (set_transaction i key value raw_params)
  end.

(** [if task_id:] on an [int | None]. *)
Definition task_id_truthy (task_id : option Z) : bool :=
  match task_id with
  | None => false
  | Some z => truthy (PInt z)
  end.

(** Lines 70-79: the [raw_params] handed to [_make_request]. *)
Definition create_or_edit_params (params : list (string * pyval))
    (task_id : option Z) : Dict.t pyval :=
  let raw_params := set_transactions 0 params [] in
  match task_id with
  | Some z =>
      if task_id_truthy task_id
      then Dict.set "objectIdentifier" (PInt z) raw_params
      else raw_params
  | None => raw_params
  end.

(** Lines 126-128, started at index [i]. *)
Fixpoint set_phid_constraints (i : nat) (phids : list string)
    (params : Dict.t pyval) : Dict.t pyval :=
  match phids with
  | [] => params
  | phid :: rest =>
      set_phid_constraints (S i) rest
        (Dict.set (phids_constraint_key i) (PStr phid) params)
  end.

Definition show_projects_params (phids : list string) : Dict.t pyval :=
  set_phid_constraints 0 phids [].

(** ** Exceptions and results *)

(** The subclasses of [requests.RequestException] that [_make_request]
    can meet inside its [try] block. *)
Inductive request_exception : Type :=
| ConnectionError (msg : string)   (* session.post: network problem, timeout *)
| HTTPError (status : Z)           (* response.raise_for_status() *)
| JSONDecodeError.                 (* response.json(), requests >= 2.27 *)

Inductive exn : Type :=
| RequestFailed (cause : request_exception)
    (* line 64: Exception(f"API request failed: {str(e)}") *)
| ApiFailed (resp_json : pyval)
    (* line 61: Exception(f"API request failed: {resp_json}") *)
| KeyError (key : pyval)
| IndexError
| TypeError
| ValueError (msg : string).

Inductive result (A : Type) : Type :=
| Ok (a : A)
| Raise (e : exn).

Arguments Ok {A} a.
Arguments Raise {A} e.

Definition rbind {A B} (r : result A) (f : A -> result B) : result B :=
  match r with
  | Ok a => f a
  | Raise e => Raise e
  end.

Notation "'try' x <- r ; k" := (rbind r (fun x => k))
  (at level 10, x name, r at level 100, k at level 200).

(** [v[k]] for a string key. *)
Definition getitem (v : pyval) (k : string) : result pyval :=
  match v with
  | PDict d =>
      match Dict.get k d with
      | Some x => Ok x
      | None => Raise (KeyError (PStr k))
      end
  | _ => Raise TypeError
  end.

(** [v[0]] *)
Definition getitem0 (v : pyval) : result pyval :=
  match v with
  | PList (x :: _) => Ok x
  | PList [] => Raise IndexError
  | PStr (String c _) => Ok (PStr (String c ""))
  | PStr "" => Raise IndexError
  | PDict _ => Raise (KeyError (PInt 0))
  | _ => Raise TypeError
  end.

(** [for x in v] *)
Definition iterate (v : pyval) : result (list pyval) :=
  match v with
  | PList l => Ok l
  | PDict d => Ok (map PStr (Dict.keys d))
  | PStr s => Ok (map (fun c => PStr (String c "")) (String.list_ascii_of_string s))
  | _ => Raise TypeError
  end.

(** ** The client *)

Record client : Type := {
  oid : nat;              (* identity of the object, what [hash(self)] sees *)
  base_url : string;
  token : string;
  timeout : Z
}.

(** [s.rstrip("/")] *)
Fixpoint rstrip_slash (s : string) : string :=
  match s with
  | "" => ""
  | String c s' =>
      match rstrip_slash s' with
      | "" => if Ascii.eqb c "/"%char then "" else String c ""
      | t => String c t
      end
  end.

Definition unset_message : string :=
  "PHABRICATOR_URL and PHABRICATOR_TOKEN must be set in your envionment".

(** Lines 18-27; [environ] is [os.environ], [self_oid] the new object. *)
Definition __init__ (self_oid : nat) (environ : gmap string string)
    : result client :=
  match environ !! "PHABRICATOR_URL" with
  | None => Raise (KeyError (PStr "PHABRICATOR_URL"))
  | Some url =>
      let base_url := rstrip_slash url in
      match environ !! "PHABRICATOR_TOKEN" with
      | None => Raise (KeyError (PStr "PHABRICATOR_TOKEN"))
      | Some token =>
          if negb (truthy (PStr base_url)) || negb (truthy (PStr token))
          then Raise (ValueError unset_message)
          else Ok {| oid := self_oid; base_url := base_url;
                     token := token; timeout := 5 |}
      end
  end.

(** [_first], lines 29-31: falls off the end, so [None], when falsy. *)
Definition _first (result_set : pyval) : result pyval :=
  if truthy result_set then getitem0 result_set else Ok PNone.

(** ** Requests, responses and the world *)

Record request : Type := {
  url : string;
  headers : Dict.t string;
  data : Dict.t pyval;
  req_timeout : Z
}.

Record response : Type := {
  status_code : Z;
  json : option pyval   (* [None]: the body is not valid JSON *)
}.

Inductive post_outcome : Type :=
| PostRaises (e : request_exception)
| PostReturns (r : response).

(** [response.raise_for_status()]: client and server error statuses. *)
Definition raise_for_status (r : response) : option request_exception :=
  if (400 <=? status_code r)%Z && (status_code r <? 600)%Z
  then Some (HTTPError (status_code r))
  else None.

(** How a caller passes the arguments of [show_user]. [functools.cache]
    builds its key from the positional arguments, then a mark and the
    keyword arguments in the order of the call, so each way of calling has
    keys of its own. *)
Inductive call_form : Type :=
| Positional             (* client.show_user(p): key (self, p) *)
| Keyword                (* client.show_user(phid=p): key (self, mark, "phid", p) *)
| ClassKeywords          (* PhabricatorClient.show_user(self=client, phid=p) *)
| ClassKeywordsSwapped.  (* PhabricatorClient.show_user(phid=p, self=client) *)

#[global] Instance call_form_eq_dec : EqDecision call_form.
Proof. solve_decision. Defined.

#[global] Instance call_form_countable : Countable call_form.
Proof.
  refine (inj_countable'
            (fun how => match how with
                        | Positional => 0
                        | Keyword => 1
                        | ClassKeywords => 2
                        | ClassKeywordsSwapped => 3
                        end)
            (fun n => match n with
                      | 0 => Positional
                      | 1 => Keyword
                      | 2 => ClassKeywords
                      | _ => ClassKeywordsSwapped
                      end) _).
  by intros [].
Defined.

Record world : Type := {
  log : list request;                  (* every session.post so far *)
  memo : gmap (nat * call_form * string) pyval
                                       (* the cache of [show_user] *)
}.

Definition M (A : Type) : Type := world -> result A * world.

Definition ret {A} (a : A) : M A := fun w => (Ok a, w).

Definition lift {A} (r : result A) : M A := fun w => (r, w).

Definition bind {A B} (m : M A) (f : A -> M B) : M B :=
  fun w =>
    match m w with
    | (Ok a, w') => f a w'
    | (Raise e, w') => (Raise e, w')
    end.

Notation "'do' x <- m ; k" := (bind m (fun x => k))
  (at level 10, x name, m at level 100, k at level 200).

Definition requests_made (w : world) : nat := length (log w).

(** [x or {}] *)
Definition or_empty {V} (x : option (Dict.t V)) : Dict.t V :=
  match x with
  | Some (kv :: d) => kv :: d
  | _ => []
  end.

(** The condition of line 163; [and] does not evaluate its right operand
    when the left one is falsy. *)
Definition is_current_milestone (column : pyval) : result bool :=
  try fields <- getitem column "fields";
  try proxy <- getitem fields "proxyPHID";
  if truthy proxy then
    try fields <- getitem column "fields";
    try hidden <- getitem fields "isHidden";
    Ok (negb (truthy hidden))
  else Ok false.

(** The loop of lines 162-164; falling off the end returns [None]. *)
Fixpoint scan_columns (columns : list pyval) : result pyval :=
  match columns with
  | [] => Ok PNone
  | column :: rest =>
      try hit <- is_current_milestone column;
      if hit then Ok column else scan_columns rest
  end.

(** Lines 58-64 on the outcome of [session.post]: only a
    [RequestException] is caught and wrapped; the exception of line 61 and
    a failed subscript leave the [try] block as they are. *)
Definition check_response (outcome : post_outcome) : result pyval :=
  match outcome with
  | PostRaises e => Raise (RequestFailed e)
  | PostReturns r =>
      match raise_for_status r with
      | Some e => Raise (RequestFailed e)
      | None =>
          match json r with
          | None => Raise (RequestFailed JSONDecodeError)
          | Some resp_json =>
              try error_code <- getitem resp_json "error_code";
              if truthy error_code
              then Raise (ApiFailed resp_json)
              else Ok resp_json
          end
      end
  end.

Definition content_type : Dict.t string :=
  [("Content-Type", "application/x-www-form-urlencoded")].

(** Lines 40-48: the form fields of a request. *)
Definition request_data (self : client) (params : option (Dict.t pyval))
    : Dict.t pyval :=
  let params := or_empty params in
  let data := [] in
  let data := Dict.set "api.token" (PStr (token self)) data in
  let data := Dict.set "output" (PStr "json") data in
  Dict.update data params.

Definition make_post (self : client) (path : string)
    (params : option (Dict.t pyval)) (headers : option (Dict.t string))
    : request :=
  {| url := base_url self +:+ "/api/" +:+ path;
     headers := Dict.update (or_empty headers) content_type;
     data := request_data self params;
     req_timeout := timeout self |}.

Section Operations.

(** The remote service: the outcome of a [session.post], given the
    requests made before it. *)
Variable remote : list request -> request -> post_outcome.

Definition session_post (req : request) : M post_outcome :=
  fun w => (Ok (remote (log w) req),
            {| log := log w ++ [req]; memo := memo w |}).

Definition _make_request (self : client) (path : string)
    (params : option (Dict.t pyval)) (headers : option (Dict.t string))
    : M pyval :=
  do outcome <- session_post (make_post self path params headers);
  lift (check_response outcome).

Definition create_or_edit_task (self : client)
    (params : list (string * pyval)) (task_id : option Z) : M pyval :=
  _make_request self "maniphest.edit"
    (Some (create_or_edit_params params task_id)) None.

Definition show_task (self : client) (task_id : Z) : M pyval :=
  do resp <- _make_request self "maniphest.search"
    (Some [("constraints[ids][0]", PInt task_id);
           ("attachments[subscribers]", PStr "true");
           ("attachments[projects]", PStr "true");
           ("attachments[columns]", PStr "true")]) None;
  lift (try res <- getitem resp "result";
        try dat <- getitem res "data";
        getitem0 dat).

(** [_make_request(path, params)["result"]["data"]] *)
Definition search (self : client) (path : string) (params : Dict.t pyval)
    : M pyval :=
  do resp <- _make_request self path (Some params) None;
  lift (try res <- getitem resp "result"; getitem res "data").

Definition find_subtasks (self : client) (parent_id : Z) : M pyval :=
  search self "maniphest.search"
    [("constraints[parentIDs][0]", PInt parent_id)].

Definition find_parent_task (self : client) (subtask_id : Z) : M pyval :=
  do dat <- search self "maniphest.search"
    [("constraints[subtaskIDs][0]", PInt subtask_id)];
  lift (_first dat).

Definition move_task_to_column (self : client) (task_id : Z)
    (column_phid : string) : M pyval :=
  create_or_edit_task self [("column", PStr column_phid)] (Some task_id).

Definition mark_task_as_resolved (self : client) (task_id : Z) : M pyval :=
  create_or_edit_task self [("status", PStr "resolved")] (Some task_id).

(** The body of [show_user], lines 119-122. *)
Definition show_user_uncached (self : client) (phid : string) : M pyval :=
  do user <- search self "user.search"
    [("constraints[phids][0]", PStr phid)];
  lift (_first user).

(** [show_user] under [functools.cache]: the key is made of the
    arguments as the caller passed them, so of the client, the way of
    calling [how] and the identifier; a value is stored when the body
    returns, nothing when it raises. *)
Definition show_user (self : client) (how : call_form) (phid : string)
    : M pyval :=
  fun w =>
    match memo w !! (oid self, how, phid) with
    | Some user => (Ok user, w)
    | None =>
        match show_user_uncached self phid w with
        | (Ok user, w') =>
            (Ok user,
             {| log := log w';
                memo := <[(oid self, how, phid) := user]> (memo w') |})
        | (Raise e, w') => (Raise e, w')
        end
    end.

Definition show_projects (self : client) (phids : list string) : M pyval :=
  search self "project.search" (show_projects_params phids).

Definition current_user (self : client) : M pyval :=
  do resp <- _make_request self "user.whoami" None None;
  lift (getitem resp "result").

Definition find_user_by_username (self : client) (username : string)
    : M pyval :=
  do user <- search self "user.search"
    [("constraints[usernames][0]", PStr username)];
  lift (_first user).

Definition assign_task_to_user (self : client) (task_id : Z)
    (user_phid : pyval) : M pyval :=
  create_or_edit_task self [("owner", user_phid)] (Some task_id).

Definition list_project_columns (self : client) (project_phid : string)
    : M pyval :=
  search self "project.column.search"
    [("constraints[projects][0]", PStr project_phid)].

Definition get_project_current_milestone (self : client)
    (project_phid : string) : M pyval :=
  do columns <- list_project_columns self project_phid;
  lift (try columns <- iterate columns; scan_columns columns).

End Operations.

(** ** Auxiliary notions for the statements *)

Definition is_digit (c : ascii) : bool :=
  (48 <=? nat_of_ascii c)%nat && (nat_of_ascii c <=? 57)%nat.

Fixpoint digits_only (s : string) : bool :=
  match s with
  | "" => true
  | String c s' => is_digit c && digits_only s'
  end.

(** The common shape of the three transaction keys of index [i]. *)
Definition tkey (i : nat) (suffix : string) : string :=
  "transactions[" +:+ dec i +:+ String "]" suffix.

(** The world after one more [session.post]. *)
Definition logged (req : request) (w : world) : world :=
  {| log := log w ++ [req]; memo := memo w |}.

(** ** Concrete clients, worlds and remote services *)

Definition empty_world : world := {| log := []; memo := ∅ |}.

Definition example_client : client :=
  {| oid := 1; base_url := "https://phabricator.example.org";
     token := "api-secret"; timeout := 5 |}.

(** A service that answers every request with the same status and body. *)
Definition remote_returning (status : Z) (body : pyval)
    : list request -> request -> post_outcome :=
  fun _ _ => PostReturns {| status_code := status; json := Some body |}.

(** A service that cannot be reached. *)
Definition remote_down : list request -> request -> post_outcome :=
  fun _ _ => PostRaises (ConnectionError "connection refused").

(** The envelope of a successful search. *)
Definition search_body (dat : pyval) : pyval :=
  PDict [("result", PDict [("data", dat)]);
         ("error_code", PNone); ("error_info", PNone)].

(** The envelope of a call the service rejected. *)
Definition error_body : pyval :=
  PDict [("result", PNone);
         ("error_code", PStr "ERR-INVALID-AUTH");
         ("error_info", PStr "API token is not valid.")].

(** A successful envelope that has no error-code field at all. *)
Definition body_without_error_code : pyval :=
  PDict [("result", PDict [("data", PList [])])].

(** A service that is unreachable for the first request and answers the
    later ones with one user. *)
Definition example_user : pyval :=
  PDict [("phid", PStr "PHID-USER-1");
         ("fields", PDict [("username", PStr "alice")])].

Definition remote_flaky : list request -> request -> post_outcome :=
  fun history _ =>
    match history with
    | [] => PostRaises (ConnectionError "connection refused")
    | _ => PostReturns {| status_code := 200;
                          json := Some (search_body (PList [example_user])) |}
    end.

(** ** Columns, as the statement about milestones reads them *)

(** [column["fields"][name]], when the column has it. *)
Definition column_field (name : string) (column : pyval) : option pyval :=
  match column with
  | PDict d =>
      match Dict.get "fields" d with
      | Some (PDict fields) => Dict.get name fields
      | _ => None
      end
  | _ => None
  end.

(** The fields mark the column as a subproject proxy, and not hidden. *)
Definition proxy_not_hidden (column : pyval) : bool :=
  match column_field "proxyPHID" column, column_field "isHidden" column with
  | Some proxy, Some hidden => truthy proxy && negb (truthy hidden)
  | _, _ => false
  end.

(** The column has what the scan reads of it: a [proxyPHID] field, and an
    [isHidden] field when the [proxyPHID] is truthy. *)
Definition readable_column (column : pyval) : bool :=
  match column_field "proxyPHID" column with
  | Some proxy =>
      if truthy proxy
      then match column_field "isHidden" column with
           | Some _ => true
           | None => false
           end
      else true
  | None => false
  end.

(** The column can be read and is not a visible proxy: its [proxyPHID]
    is falsy, or it is hidden. *)
Definition passed_over (column : pyval) : bool :=
  readable_column column && negb (proxy_not_hidden column).

(** What a search gets from the service, read off the reply itself: the
    [result.data] of the JSON envelope, when the status is outside
    400..599 and the envelope has an error code that is falsy. *)
Definition reply_data (outcome : post_outcome) : option pyval :=
  match outcome with
  | PostRaises _ => None
  | PostReturns r =>
      if bool_decide (400 ≤ status_code r < 600)%Z then None
      else match json r with
           | Some (PDict envelope) =>
               match Dict.get "error_code" envelope with
               | Some error_code =>
                   if truthy error_code then None
                   else match Dict.get "result" envelope with
                        | Some (PDict res) => Dict.get "data" res
                        | _ => None
                        end
               | None => None
               end
           | _ => None
           end
  end.

Definition example_column (name : string) (proxy : pyval) (hidden : bool)
    : pyval :=
  PDict [("phid", PStr name);
         ("fields", PDict [("name", PStr name); ("proxyPHID", proxy);
                           ("isHidden", PBool hidden)])].

Definition example_columns : list pyval :=
  [example_column "Backlog" PNone false;
   example_column "Sprint 11" (PStr "PHID-PROJ-11") true;
   example_column "Sprint 12" (PStr "PHID-PROJ-12") false;
   example_column "Sprint 13" (PStr "PHID-PROJ-13") false].

(** ** Trailing slashes *)

Fixpoint slashes (n : nat) : string :=
  match n with
  | 0 => ""
  | S n' => String "/" (slashes n')
  end.

Fixpoint last_char (s : string) : option ascii :=
  match s with
  | "" => None
  | String c "" => Some c
  | String _ s' => last_char s'
  end.

Definition example_environ (url tok : string) : gmap string string :=
  <["PHABRICATOR_URL" := url]> (<["PHABRICATOR_TOKEN" := tok]> ∅).

(** ** The form fields of a request, written out *)

(** The token and the output format, which open every body. *)
Definition base_fields (self : client) : Dict.t pyval :=
  [("api.token", PStr (token self)); ("output", PStr "json")].

(** The fields of the [i]-th transaction: its type, then its value, or
    its sub-values one by one when the value is a list. *)
Definition transaction_fields (i : nat) (key : string) (value : pyval)
    : Dict.t pyval :=
  (transaction_type_key i, PStr key) ::
  match value with
  | PList l => imap (fun j subvalue => (transaction_subvalue_key i j, subvalue)) l
  | _ => [(transaction_value_key i, value)]
  end.

Definition transactions_fields (i : nat) (params : list (string * pyval))
    : Dict.t pyval :=
  concat (imap (fun n entry => transaction_fields (i + n) (fst entry) (snd entry))
            params).

Definition object_identifier_fields (task_id : option Z) : Dict.t pyval :=
  match task_id with
  | Some z => if (z =? 0)%Z then [] else [("objectIdentifier", PInt z)]
  | None => []
  end.

Definition phids_fields (i : nat) (phids : list string) : Dict.t pyval :=
  imap (fun n phid => (phids_constraint_key (i + n), PStr phid)) phids.

(** ** Sequences of calls *)

(** A call of a public method, with its arguments. *)
Inductive call : Type :=
| CreateOrEditTask (params : list (string * pyval)) (task_id : option Z)
| ShowTask (task_id : Z)
| FindSubtasks (parent_id : Z)
| FindParentTask (subtask_id : Z)
| MoveTaskToColumn (task_id : Z) (column_phid : string)
| MarkTaskAsResolved (task_id : Z)
| ShowUser (how : call_form) (phid : string)
| ShowProjects (phids : list string)
| CurrentUser
| FindUserByUsername (username : string)
| AssignTaskToUser (task_id : Z) (user_phid : pyval)
| ListProjectColumns (project_phid : string)
| GetProjectCurrentMilestone (project_phid : string).

Definition run_call (remote : list request -> request -> post_outcome)
    (self : client) (c : call) : M pyval :=
  match c with
  | CreateOrEditTask params task_id =>
      create_or_edit_task remote self params task_id
  | ShowTask task_id => show_task remote self task_id
  | FindSubtasks parent_id => find_subtasks remote self parent_id
  | FindParentTask subtask_id => find_parent_task remote self subtask_id
  | MoveTaskToColumn task_id column_phid =>
      move_task_to_column remote self task_id column_phid
  | MarkTaskAsResolved task_id => mark_task_as_resolved remote self task_id
  | ShowUser how phid => show_user remote self how phid
  | ShowProjects phids => show_projects remote self phids
  | CurrentUser => current_user remote self
  | FindUserByUsername username => find_user_by_username remote self username
  | AssignTaskToUser task_id user_phid =>
      assign_task_to_user remote self task_id user_phid
  | ListProjectColumns project_phid =>
      list_project_columns remote self project_phid
  | GetProjectCurrentMilestone project_phid =>
      get_project_current_milestone remote self project_phid
  end.

(** A program that calls the methods of its clients one after the other
    and goes on after a call that raised. *)
Fixpoint run_calls (remote : list request -> request -> post_outcome)
    (calls : list (client * call)) (w : world) : world :=
  match calls with
  | [] => w
  | (self, c) :: rest => run_calls remote rest (snd (run_call remote self c w))
  end.

(** The remote procedure a call addresses. *)
Definition procedure (c : call) : string :=
  match c with
  | CreateOrEditTask _ _ | MoveTaskToColumn _ _ | MarkTaskAsResolved _
  | AssignTaskToUser _ _ => "maniphest.edit"
  | ShowTask _ | FindSubtasks _ | FindParentTask _ => "maniphest.search"
  | ShowUser _ _ | FindUserByUsername _ => "user.search"
  | ShowProjects _ => "project.search"
  | CurrentUser => "user.whoami"
  | ListProjectColumns _ | GetProjectCurrentMilestone _ =>
      "project.column.search"
  end.

(** The call is answered from the cache of [show_user]. *)
Definition memo_hit (self : client) (c : call) (w : world) : bool :=
  match c with
  | ShowUser how phid =>
      match memo w !! (oid self, how, phid) with
      | Some _ => true
      | None => false
      end
  | _ => false
  end.

(** The parameters a call hands to [_make_request]. *)
Definition call_params (c : call) : option (Dict.t pyval) :=
  match c with
  | CreateOrEditTask params task_id =>
      Some (create_or_edit_params params task_id)
  | ShowTask task_id =>
      Some [("constraints[ids][0]", PInt task_id);
            ("attachments[subscribers]", PStr "true");
            ("attachments[projects]", PStr "true");
            ("attachments[columns]", PStr "true")]
  | FindSubtasks parent_id =>
      Some [("constraints[parentIDs][0]", PInt parent_id)]
  | FindParentTask subtask_id =>
      Some [("constraints[subtaskIDs][0]", PInt subtask_id)]
  | MoveTaskToColumn task_id column_phid =>
      Some (create_or_edit_params [("column", PStr column_phid)] (Some task_id))
  | MarkTaskAsResolved task_id =>
      Some (create_or_edit_params [("status", PStr "resolved")] (Some task_id))
  | ShowUser _ phid => Some [("constraints[phids][0]", PStr phid)]
  | ShowProjects phids => Some (show_projects_params phids)
  | CurrentUser => None
  | FindUserByUsername username =>
      Some [("constraints[usernames][0]", PStr username)]
  | AssignTaskToUser task_id user_phid =>
      Some (create_or_edit_params [("owner", user_phid)] (Some task_id))
  | ListProjectColumns project_phid
  | GetProjectCurrentMilestone project_phid =>
      Some [("constraints[projects][0]", PStr project_phid)]
  end.

(** * Properties *)

(** ** Dictionaries *)

Module DictFacts.
Import Dict.

Section Facts.
Context {V : Type}.
Implicit Types (d other : Dict.t V) (k : string) (v : V).

Lemma get_set_eq k v d : get k (set k v d) = Some v.
Proof.
  induction d as [|[k' v'] d IH]; simpl.
  - by rewrite String.eqb_refl.
  - destruct (String.eqb k k') eqn:E; simpl; rewrite E; [done | exact IH].
Qed.

Lemma get_set_ne k k' v d : k ≠ k' → get k (set k' v d) = get k d.
Proof.
  intros Hne. induction d as [|[k1 v1] d IH]; simpl.
  - by apply String.eqb_neq in Hne as ->.
  - destruct (String.eqb k' k1) eqn:E; simpl.
    + apply String.eqb_eq in E as <-.
      by apply String.eqb_neq in Hne as ->.
    + by rewrite IH.
Qed.

Lemma get_None k d : get k d = None ↔ k ∉ keys d.
Proof.
  induction d as [|[k1 v1] d IH]; simpl.
  - split; [intros _; apply not_elem_of_nil | done].
  - rewrite not_elem_of_cons. destruct (String.eqb k k1) eqn:E.
    + apply String.eqb_eq in E. split; [done | intros [? _]; done].
    + apply String.eqb_neq in E. rewrite IH. tauto.
Qed.

Lemma set_fresh k v d : k ∉ keys d → set k v d = (d ++ [(k, v)])%list.
Proof.
  induction d as [|[k1 v1] d IH]; simpl; [done |].
  rewrite not_elem_of_cons. intros [Hne Hd].
  apply String.eqb_neq in Hne as ->. by rewrite IH.
Qed.

Lemma set_present k v d : k ∈ keys d → keys (set k v d) = keys d.
Proof.
  induction d as [|[k1 v1] d IH]; simpl.
  - by intros ?%elem_of_nil.
  - intros Hin. destruct (String.eqb k k1) eqn:E; simpl; [done |].
    apply String.eqb_neq in E. apply elem_of_cons in Hin as [? | Hin]; [done |].
    by rewrite IH.
Qed.

(** [set] keeps the keys of a dictionary unique. *)
Lemma NoDup_set k v d : NoDup (keys d) → NoDup (keys (set k v d)).
Proof.
  intros Hd. destruct (decide (k ∈ keys d)) as [Hin | Hout].
  - by rewrite set_present.
  - rewrite set_fresh by done. unfold keys. rewrite map_app. simpl.
    apply NoDup_app. split_and!; [done | | apply NoDup_singleton].
    intros x Hx ->%list_elem_of_singleton. by apply Hout.
Qed.

(** [d |= other]: the bindings of [other] win, the rest of [d] stays. *)
Lemma get_update k d other :
  NoDup (keys other) →
  get k (update d other) = match get k other with
                           | Some v => Some v
                           | None => get k d
                           end.
Proof.
  unfold update. revert d.
  induction other as [|[k1 v1] other IH]; intros d Hnd; simpl; [done |].
  cbn in Hnd. apply NoDup_cons in Hnd as [Hk1 Hnd]. rewrite IH by done.
  destruct (String.eqb k k1) eqn:E.
  - apply String.eqb_eq in E as ->.
    apply get_None in Hk1 as ->. apply get_set_eq.
  - apply String.eqb_neq in E. by rewrite get_set_ne.
Qed.

End Facts.
End DictFacts.

(** ** Formatted keys never collide *)

Lemma digits_only_dec n : digits_only (dec n) = true.
Proof.
  unfold dec. generalize (Nat.to_uint n) as d.
  induction d; simpl; auto.
Qed.

Lemma dec_inj n n' : dec n = dec n' → n = n'.
Proof.
  unfold dec. intros H. apply DecimalNat.Unsigned.to_uint_inj.
  apply (f_equal NilEmpty.uint_of_string) in H.
  rewrite !NilEmpty.usu in H. congruence.
Qed.

(** A run of digits ends at the first character that is not a digit. *)
Lemma digits_split s s' c r r' :
  digits_only s = true → digits_only s' = true → is_digit c = false →
  s +:+ String c r = s' +:+ String c r' → s = s' ∧ r = r'.
Proof.
  revert s'. induction s as [|a s IH]; intros [|b s']; simpl;
    intros Hs Hs' Hc Heq.
  - by injection Heq.
  - injection Heq as -> _. apply andb_true_iff in Hs' as [Hb _]. congruence.
  - injection Heq as <- _. apply andb_true_iff in Hs as [Ha _]. congruence.
  - injection Heq as -> Heq.
    apply andb_true_iff in Hs as [_ Hs]. apply andb_true_iff in Hs' as [_ Hs'].
    destruct (IH s' Hs Hs' Hc Heq) as [-> ->]. done.
Qed.

Lemma tkey_inj i i' r r' : tkey i r = tkey i' r' → i = i' ∧ r = r'.
Proof.
  unfold tkey. simpl. intros [= Heq].
  apply digits_split in Heq as [Hi Hr];
    [| apply digits_only_dec | apply digits_only_dec | reflexivity].
  split; [by apply dec_inj | done].
Qed.

Lemma type_key_tkey i : transaction_type_key i = tkey i "[type]".
Proof. reflexivity. Qed.

Lemma value_key_tkey i : transaction_value_key i = tkey i "[value]".
Proof. reflexivity. Qed.

Lemma subvalue_key_tkey i j :
  transaction_subvalue_key i j = tkey i ("[value][" +:+ dec j +:+ "]").
Proof. reflexivity. Qed.

Lemma subvalue_key_inj i j j' :
  transaction_subvalue_key i j = transaction_subvalue_key i j' → j = j'.
Proof.
  rewrite !subvalue_key_tkey. intros [_ Heq]%tkey_inj.
  simpl in Heq. injection Heq as Heq.
  apply digits_split in Heq as [Hj _];
    [| apply digits_only_dec | apply digits_only_dec | reflexivity].
  by apply dec_inj.
Qed.

Lemma value_key_not_subvalue i j :
  transaction_value_key i ≠ transaction_subvalue_key i j.
Proof.
  rewrite value_key_tkey, subvalue_key_tkey. intros [_ Heq]%tkey_inj.
  simpl in Heq. discriminate.
Qed.

Lemma value_key_not_type i : transaction_value_key i ≠ transaction_type_key i.
Proof.
  rewrite value_key_tkey, type_key_tkey. intros [_ Heq]%tkey_inj. discriminate.
Qed.

Lemma subvalue_key_not_type i j :
  transaction_subvalue_key i j ≠ transaction_type_key i.
Proof.
  rewrite subvalue_key_tkey, type_key_tkey. intros [_ Heq]%tkey_inj.
  simpl in Heq. discriminate.
Qed.

Lemma tkey_not_object_identifier i r : "objectIdentifier" ≠ tkey i r.
Proof. unfold tkey. simpl. discriminate. Qed.

(** The keys as they go on the wire. *)
Example transaction_keys_rendered :
  transaction_type_key 0 = "transactions[0][type]"
  ∧ transaction_value_key 0 = "transactions[0][value]"
  ∧ transaction_subvalue_key 0 1 = "transactions[0][value][1]"
  ∧ transaction_subvalue_key 12 103 = "transactions[12][value][103]"
  ∧ phids_constraint_key 2 = "constraints[phids][2]".
Proof. by split_and!. Qed.

(** ** The transaction encoding *)

Section Encoding.
Import Dict DictFacts.
Implicit Types (raw : Dict.t pyval) (k key : string) (i j n : nat).

Lemma set_subvalues_frame i j value raw k :
  (∀ j', j ≤ j' → k ≠ transaction_subvalue_key i j') →
  get k (set_subvalues i j value raw) = get k raw.
Proof.
  revert j raw.
  induction value as [|v value IH]; intros j raw Hk; simpl; [done |].
  rewrite IH.
  - apply get_set_ne, Hk. lia.
  - intros j' Hj'. apply Hk. lia.
Qed.

Lemma set_subvalues_get i j value raw n v :
  value !! n = Some v →
  get (transaction_subvalue_key i (j + n)) (set_subvalues i j value raw)
  = Some v.
Proof.
  revert j n raw.
  induction value as [|v0 value IH]; intros j [|n] raw Hn; simplify_eq/=.
  - rewrite Nat.add_0_r, set_subvalues_frame; [apply get_set_eq |].
    intros j' Hj' Heq%subvalue_key_inj. lia.
  - rewrite <- Nat.add_succ_comm. by apply IH.
Qed.

Lemma set_transaction_frame i key value raw k :
  (∀ r, k ≠ tkey i r) → get k (set_transaction i key value raw) = get k raw.
Proof.
  intros Hk. unfold set_transaction.
  assert (get k (set (transaction_type_key i) (PStr key) raw) = get k raw)
    as Htype by (apply get_set_ne; rewrite type_key_tkey; apply Hk).
  destruct value; try (rewrite get_set_ne;
    [exact Htype | rewrite value_key_tkey; apply Hk]).
  rewrite set_subvalues_frame; [exact Htype |].
  intros j' _. rewrite subvalue_key_tkey. apply Hk.
Qed.

Lemma set_transactions_frame i items raw k :
  (∀ i' r, i ≤ i' → k ≠ tkey i' r) →
  get k (set_transactions i items raw) = get k raw.
Proof.
  revert i raw.
  induction items as [|[key value] items IH]; intros i raw Hk; simpl; [done |].
  rewrite IH.
  - apply set_transaction_frame. intros r. apply Hk. lia.
  - intros i' r Hi'. apply Hk. lia.
Qed.

(** What the loop leaves under a key of index [i + n] is what iteration
    [i + n] wrote: the other iterations do not touch it. *)
Lemma set_transactions_get i items raw n key value r :
  items !! n = Some (key, value) →
  ∃ raw', get (tkey (i + n) r) (set_transactions i items raw)
          = get (tkey (i + n) r) (set_transaction (i + n) key value raw')
        ∧ get (tkey (i + n) r) raw' = get (tkey (i + n) r) raw.
Proof.
  revert i n raw.
  induction items as [|[key0 value0] items IH]; intros i [|n] raw Hn;
    simplify_eq/=.
  - exists raw. rewrite Nat.add_0_r. split; [| done].
    apply set_transactions_frame.
    intros i' r' Hi' [Hi _]%tkey_inj. lia.
  - destruct (IH (S i) n (set_transaction i key0 value0 raw) Hn)
      as (raw' & Hget & Hraw').
    rewrite <- Nat.add_succ_comm. exists raw'. split; [done |].
    rewrite Hraw'. apply set_transaction_frame.
    intros r' [Hi _]%tkey_inj. lia.
Qed.

Lemma set_transactions_get_0 items n key value r :
  items !! n = Some (key, value) →
  ∃ raw', get (tkey n r) (set_transactions 0 items [])
          = get (tkey n r) (set_transaction n key value raw')
        ∧ get (tkey n r) raw' = None.
Proof.
  intros Hn.
  destruct (set_transactions_get 0 items [] n key value r Hn)
    as (raw' & Hget & Hraw').
  simpl in Hget, Hraw'. eauto.
Qed.

Lemma NoDup_set_subvalues i j value raw :
  NoDup (keys raw) → NoDup (keys (set_subvalues i j value raw)).
Proof.
  revert j raw. induction value as [|v value IH]; intros j raw Hnd; simpl;
    [done |].
  by apply IH, NoDup_set.
Qed.

Lemma NoDup_set_transactions i items raw :
  NoDup (keys raw) → NoDup (keys (set_transactions i items raw)).
Proof.
  revert i raw.
  induction items as [|[key value] items IH]; intros i raw Hnd; simpl;
    [done |].
  apply IH. unfold set_transaction.
  destruct value; try by do 2 apply NoDup_set.
  by apply NoDup_set_subvalues, NoDup_set.
Qed.

Lemma NoDup_create_or_edit_params params task_id :
  NoDup (keys (create_or_edit_params params task_id)).
Proof.
  assert (NoDup (keys (set_transactions 0 params []))) as Hnd
    by apply NoDup_set_transactions, NoDup_nil_2.
  unfold create_or_edit_params.
  destruct task_id as [z|]; [| done].
  destruct (task_id_truthy (Some z)); [by apply NoDup_set | done].
Qed.

Lemma NoDup_show_projects_params phids : NoDup (keys (show_projects_params phids)).
Proof.
  unfold show_projects_params. generalize 0 as i.
  assert (NoDup (keys (V:=pyval) [])) as Hnd by apply NoDup_nil_2.
  revert Hnd. generalize ([] : Dict.t pyval) as params.
  induction phids as [|phid phids IH]; intros params Hnd i; simpl; [done |].
  by apply IH, NoDup_set.
Qed.

(** The form fields: the token and the output format, then the
    parameters of the call. *)
Lemma request_data_get self raw k :
  NoDup (keys raw) →
  get k (request_data self (Some raw))
  = match get k raw with
    | Some v => Some v
    | None => get k [("api.token", PStr (token self)); ("output", PStr "json")]
    end.
Proof.
  intros Hnd. unfold request_data.
  replace (or_empty (Some raw)) with raw by (by destruct raw).
  by rewrite get_update.
Qed.

End Encoding.

(** ** One call, one request *)

Section Runs.
Variable remote : list request -> request -> post_outcome.

Lemma _make_request_run self path params headers w :
  _make_request remote self path params headers w
  = (check_response (remote (log w) (make_post self path params headers)),
     logged (make_post self path params headers) w).
Proof. reflexivity. Qed.

Lemma search_run self path params w :
  search remote self path params w
  = (try resp <- check_response
                   (remote (log w) (make_post self path (Some params) None));
     try res <- getitem resp "result";
     getitem res "data",
     logged (make_post self path (Some params) None) w).
Proof.
  unfold search, bind. rewrite _make_request_run.
  by destruct (check_response _).
Qed.

Lemma create_or_edit_task_run self params task_id w :
  create_or_edit_task remote self params task_id w
  = (check_response (remote (log w)
       (make_post self "maniphest.edit"
          (Some (create_or_edit_params params task_id)) None)),
     logged (make_post self "maniphest.edit"
          (Some (create_or_edit_params params task_id)) None) w).
Proof. reflexivity. Qed.

End Runs.

(** ** The edit target *)

Lemma object_identifier_field self params task_id :
  Dict.get "objectIdentifier"
    (request_data self (Some (create_or_edit_params params task_id)))
  = match task_id with
    | Some z => if (z =? 0)%Z then None else Some (PInt z)
    | None => None
    end.
Proof.
  rewrite request_data_get by apply NoDup_create_or_edit_params.
  assert (Dict.get "objectIdentifier" (set_transactions 0 params []) = None)
    as Hnone.
  { rewrite set_transactions_frame; [done |].
    intros i' r _. apply tkey_not_object_identifier. }
  unfold create_or_edit_params, task_id_truthy, truthy.
  destruct task_id as [z|]; [| by rewrite Hnone].
  destruct (z =? 0)%Z; simpl; [by rewrite Hnone |].
  by rewrite DictFacts.get_set_eq.
Qed.

(** C2, as amended: a task id that is given and not zero is the
    [objectIdentifier] of the request body; without a task id, and with the
    task id 0, the body has no [objectIdentifier] key. The parameters
    [{"status": "resolved"}] give the body fields
    [transactions[0][type]=status] and [transactions[0][value]=resolved],
    and no [objectIdentifier] without a task id, [objectIdentifier=42] for
    the task id 42. *)
Theorem create_or_edit_task_edit_target remote self w :
  (∀ params task_id, ∃ req,
      log (snd (create_or_edit_task remote self params task_id w))
      = log w ++ [req]
      ∧ Dict.get "objectIdentifier" (data req)
        = match task_id with
          | Some z => if (z =? 0)%Z then None else Some (PInt z)
          | None => None
          end)
  ∧ (∃ req,
      log (snd (create_or_edit_task remote self
                  [("status", PStr "resolved")] None w))
      = log w ++ [req]
      ∧ data req = [("api.token", PStr (token self)); ("output", PStr "json");
                    ("transactions[0][type]", PStr "status");
                    ("transactions[0][value]", PStr "resolved")])
  ∧ (∃ req,
      log (snd (create_or_edit_task remote self
                  [("status", PStr "resolved")] (Some 42%Z) w))
      = log w ++ [req]
      ∧ data req = [("api.token", PStr (token self)); ("output", PStr "json");
                    ("transactions[0][type]", PStr "status");
                    ("transactions[0][value]", PStr "resolved");
                    ("objectIdentifier", PInt 42)]).
Proof.
  split_and!.
  - intros params task_id. eexists. rewrite create_or_edit_task_run.
    split; [reflexivity |]. apply object_identifier_field.
  - eexists. rewrite create_or_edit_task_run. split; reflexivity.
  - eexists. rewrite create_or_edit_task_run. split; reflexivity.
Qed.

(** C2 as stated fails: the task id 0 is given, and the request body has
    no [objectIdentifier]. *)
Lemma create_or_edit_task_zero_id_left_out :
  ¬ ∃ req,
      log (snd (create_or_edit_task remote_down example_client
                  [("status", PStr "resolved")] (Some 0%Z) empty_world))
      = [req]
      ∧ Dict.get "objectIdentifier" (data req) = Some (PInt 0).
Proof.
  intros (req & Hlog & Hget). rewrite create_or_edit_task_run in Hlog.
  simpl in Hlog. injection Hlog as <-. vm_compute in Hget. discriminate.
Qed.

(** C9: with the task id 0 the call is the call without a task id, and its
    request body has no [objectIdentifier] key. *)
Theorem create_or_edit_task_zero_id_creates remote self params w :
  create_or_edit_task remote self params (Some 0%Z) w
  = create_or_edit_task remote self params None w
  ∧ ∃ req,
      log (snd (create_or_edit_task remote self params (Some 0%Z) w))
      = log w ++ [req]
      ∧ Dict.get "objectIdentifier" (data req) = None
      ∧ "objectIdentifier" ∉ Dict.keys (data req).
Proof.
  split; [reflexivity |]. eexists. rewrite create_or_edit_task_run.
  split; [reflexivity |].
  pose proof (object_identifier_field self params (Some 0%Z)) as Hnone.
  split; [exact Hnone | by apply DictFacts.get_None].
Qed.

(** C4: when the [i]-th entry of the parameters has a list as its value,
    the request body maps [transactions[i][value][j]] to the [j]-th element
    of the list, for every index [j] of the list, and has no
    [transactions[i][value]] key. *)
Theorem create_or_edit_task_sequence_value
    remote self params task_id w i key value :
  params !! i = Some (key, PList value) →
  ∃ req,
    log (snd (create_or_edit_task remote self params task_id w))
    = log w ++ [req]
    ∧ (∀ j v, value !! j = Some v →
         Dict.get (transaction_subvalue_key i j) (data req) = Some v)
    ∧ Dict.get (transaction_value_key i) (data req) = None.
Proof.
  intros Hi. eexists. rewrite create_or_edit_task_run.
  split; [reflexivity |]. simpl.
  assert (∀ r, "objectIdentifier" ≠ tkey i r →
    Dict.get (tkey i r) (create_or_edit_params params task_id)
    = Dict.get (tkey i r) (set_transactions 0 params [])) as Hparams.
  { intros r Hne. unfold create_or_edit_params.
    destruct task_id as [z|]; [| done].
    destruct (task_id_truthy (Some z)); [| done].
    by rewrite DictFacts.get_set_ne. }
  split.
  - intros j v Hj.
    rewrite request_data_get by apply NoDup_create_or_edit_params.
    rewrite subvalue_key_tkey, Hparams by apply tkey_not_object_identifier.
    destruct (set_transactions_get_0 params i key (PList value)
                ("[value][" +:+ dec j +:+ "]") Hi) as (raw' & -> & _).
    simpl. rewrite <- subvalue_key_tkey.
    by rewrite (set_subvalues_get i 0 value _ j v Hj).
  - rewrite request_data_get by apply NoDup_create_or_edit_params.
    rewrite value_key_tkey, Hparams by apply tkey_not_object_identifier.
    destruct (set_transactions_get_0 params i key (PList value) "[value]" Hi)
      as (raw' & -> & Hraw').
    unfold set_transaction.
    rewrite <- value_key_tkey, set_subvalues_frame
      by (intros; apply value_key_not_subvalue).
    rewrite DictFacts.get_set_ne by apply value_key_not_type.
    rewrite value_key_tkey, Hraw'. reflexivity.
Qed.

(** C4 on the parameters [{"subscribers": ["PHID-A", "PHID-B"]}]. *)
Lemma create_or_edit_task_sequence_value_subscribers :
  ∃ req,
    log (snd (create_or_edit_task remote_down example_client
                [("subscribers", PList [PStr "PHID-A"; PStr "PHID-B"])]
                None empty_world))
    = log empty_world ++ [req]
    ∧ (∀ j v, [PStr "PHID-A"; PStr "PHID-B"] !! j = Some v →
         Dict.get (transaction_subvalue_key 0 j) (data req) = Some v)
    ∧ Dict.get (transaction_value_key 0) (data req) = None.
Proof.
  apply (create_or_edit_task_sequence_value remote_down example_client
           [("subscribers", PList [PStr "PHID-A"; PStr "PHID-B"])]
           None empty_world 0 "subscribers").
  reflexivity.
Defined.

(** C10: for an empty sequence of project identifiers the request body has
    the token and the output format and nothing else: the search carries no
    constraint. *)
Theorem show_projects_empty_unconstrained remote self w :
  ∃ req,
    log (snd (show_projects remote self [] w)) = log w ++ [req]
    ∧ url req = base_url self +:+ "/api/project.search"
    ∧ data req = [("api.token", PStr (token self)); ("output", PStr "json")].
Proof.
  eexists. unfold show_projects. rewrite search_run. by split_and!.
Qed.

(** ** Response validation *)

Lemma raise_for_status_spec r :
  raise_for_status r = None ↔ ¬ (400 ≤ status_code r < 600)%Z.
Proof.
  unfold raise_for_status.
  destruct (Z.leb_spec 400 (status_code r)), (Z.ltb_spec (status_code r) 600);
    simpl; split; (done || lia).
Qed.

Lemma check_response_http_error r :
  (400 ≤ status_code r < 600)%Z →
  check_response (PostReturns r)
  = Raise (RequestFailed (HTTPError (status_code r))).
Proof.
  intros [Hlo Hhi]. unfold check_response, raise_for_status.
  apply Z.leb_le in Hlo as ->. apply Z.ltb_lt in Hhi as ->. done.
Qed.

Lemma check_response_error_code r body error_code :
  json r = Some body →
  getitem body "error_code" = Ok error_code →
  truthy error_code = true →
  check_response (PostReturns r)
  = Raise (match raise_for_status r with
           | Some e => RequestFailed e
           | None => ApiFailed body
           end).
Proof.
  intros Hjson Hget Htruthy. unfold check_response.
  destruct (raise_for_status r); [done |].
  by rewrite Hjson, Hget; simpl; rewrite Htruthy.
Qed.

(** Whatever raises in [_make_request] raises in the operation built on
    it. *)
Ltac raise_through Hremote Hcheck :=
  intros;
  repeat first
    [ progress unfold create_or_edit_task, show_task, find_subtasks,
        find_parent_task, move_task_to_column, mark_task_as_resolved,
        show_user_uncached, show_projects, current_user,
        find_user_by_username, assign_task_to_user, list_project_columns,
        get_project_current_milestone, search
    | progress unfold bind ];
  rewrite ?_make_request_run, ?Hremote, ?Hcheck; reflexivity.

(** C1, as amended: when the decoded body of the response has a truthy
    error-code field and the HTTP status is not a client or server error
    (not in 400..599), [_make_request] and every public operation raise
    the API-level failure that carries the whole decoded body; when the
    status is in 400..599 they raise the transport failure that carries the
    HTTP error instead, whatever the body. [show_user] issues a request
    only when its argument is not memoised. *)
Theorem error_code_raises_after_status_check
    remote self w r body error_code :
  (∀ req, remote (log w) req = PostReturns r) →
  json r = Some body →
  getitem body "error_code" = Ok error_code →
  truthy error_code = true →
  let failure : exn :=
    if bool_decide (400 ≤ status_code r < 600)%Z
    then RequestFailed (HTTPError (status_code r))
    else ApiFailed body in
  (∀ path params headers,
      fst (_make_request remote self path params headers w) = Raise failure)
  ∧ (∀ params task_id,
      fst (create_or_edit_task remote self params task_id w) = Raise failure)
  ∧ (∀ task_id, fst (show_task remote self task_id w) = Raise failure)
  ∧ (∀ parent_id, fst (find_subtasks remote self parent_id w) = Raise failure)
  ∧ (∀ subtask_id,
      fst (find_parent_task remote self subtask_id w) = Raise failure)
  ∧ (∀ task_id column_phid,
      fst (move_task_to_column remote self task_id column_phid w)
      = Raise failure)
  ∧ (∀ task_id,
      fst (mark_task_as_resolved remote self task_id w) = Raise failure)
  ∧ (∀ how phid, memo w !! (oid self, how, phid) = None →
      fst (show_user remote self how phid w) = Raise failure)
  ∧ (∀ phids, fst (show_projects remote self phids w) = Raise failure)
  ∧ fst (current_user remote self w) = Raise failure
  ∧ (∀ username,
      fst (find_user_by_username remote self username w) = Raise failure)
  ∧ (∀ task_id user_phid,
      fst (assign_task_to_user remote self task_id user_phid w)
      = Raise failure)
  ∧ (∀ project_phid,
      fst (list_project_columns remote self project_phid w) = Raise failure)
  ∧ (∀ project_phid,
      fst (get_project_current_milestone remote self project_phid w)
      = Raise failure).
Proof.
  intros Hremote Hjson Hget Htruthy failure.
  assert (check_response (PostReturns r) = Raise failure) as Hcheck.
  { rewrite (check_response_error_code r body error_code) by done.
    subst failure. case_bool_decide as Hstatus.
    - unfold raise_for_status.
      destruct Hstatus as [->%Z.leb_le ->%Z.ltb_lt]. done.
    - by apply raise_for_status_spec in Hstatus as ->. }
  split_and!; try by raise_through Hremote Hcheck.
  intros how phid Hmiss. unfold show_user. rewrite Hmiss.
  replace (show_user_uncached remote self phid w)
    with (Raise (A:=pyval) failure,
          logged (make_post self "user.search"
            (Some [("constraints[phids][0]", PStr phid)]) None) w);
    [done |].
  symmetry. by raise_through Hremote Hcheck.
Qed.

(** C1 at a rejected call answered with the status 200. *)
Lemma error_code_raises_after_status_check_200 :
  fst (_make_request (remote_returning 200 error_body) example_client
         "user.whoami" None None empty_world)
  = Raise (ApiFailed error_body).
Proof.
  apply (error_code_raises_after_status_check
           (remote_returning 200 error_body) example_client empty_world
           {| status_code := 200; json := Some error_body |}
           error_body (PStr "ERR-INVALID-AUTH"));
    reflexivity.
Defined.

(** C1 as stated fails: the body has a truthy error code, the status is
    500, and the failure raised carries the HTTP error, not the body. *)
Lemma error_code_lost_behind_http_error :
  getitem error_body "error_code" = Ok (PStr "ERR-INVALID-AUTH")
  ∧ truthy (PStr "ERR-INVALID-AUTH") = true
  ∧ fst (_make_request (remote_returning 500 error_body) example_client
           "user.whoami" None None empty_world)
    = Raise (RequestFailed (HTTPError 500))
  ∧ fst (_make_request (remote_returning 500 error_body) example_client
           "user.whoami" None None empty_world)
    ≠ Raise (ApiFailed error_body).
Proof. split_and!; [reflexivity | reflexivity | reflexivity | discriminate]. Qed.

(** C3, as amended: for a response whose status passes the check and
    whose decoded body is a mapping that has the error-code field, the call
    returns the decoded body exactly when the field is falsy, and raises
    the API-level failure otherwise; a mapping without the field is not a
    success, the lookup of the field raises [KeyError]. *)
Theorem success_iff_error_code_falsy
    remote self path params headers w r d :
  remote (log w) (make_post self path params headers) = PostReturns r →
  raise_for_status r = None →
  json r = Some (PDict d) →
  match Dict.get "error_code" d with
  | Some error_code =>
      (fst (_make_request remote self path params headers w) = Ok (PDict d)
       ↔ truthy error_code = false)
      ∧ (truthy error_code = true →
         fst (_make_request remote self path params headers w)
         = Raise (ApiFailed (PDict d)))
  | None =>
      fst (_make_request remote self path params headers w)
      = Raise (KeyError (PStr "error_code"))
  end.
Proof.
  intros Hremote Hstatus Hjson. rewrite _make_request_run, Hremote. simpl.
  rewrite Hstatus, Hjson. simpl.
  destruct (Dict.get "error_code" d) as [error_code|]; simpl; [| done].
  destruct (truthy error_code); split; (done || by split).
Qed.

(** C3 on the envelope of a successful search. *)
Lemma success_iff_error_code_falsy_search :
  fst (_make_request (remote_returning 200 (search_body (PList [])))
         example_client "user.whoami" None None empty_world)
  = Ok (search_body (PList []))
  ↔ truthy PNone = false.
Proof.
  apply (success_iff_error_code_falsy
           (remote_returning 200 (search_body (PList []))) example_client
           "user.whoami" None None empty_world
           {| status_code := 200; json := Some (search_body (PList [])) |}
           [("result", PDict [("data", PList [])]);
            ("error_code", PNone); ("error_info", PNone)]);
    reflexivity.
Defined.

(** C3 as stated fails: the status is 200, the body has no error-code
    field, and the call does not return the body. *)
Lemma absent_error_code_is_not_success :
  raise_for_status
    {| status_code := 200; json := Some body_without_error_code |} = None
  ∧ getitem body_without_error_code "error_code"
    = Raise (KeyError (PStr "error_code"))
  ∧ fst (_make_request (remote_returning 200 body_without_error_code)
           example_client "user.whoami" None None empty_world)
    ≠ Ok body_without_error_code.
Proof. split_and!; [reflexivity | reflexivity | discriminate]. Qed.

(** ** The reply of a search *)

(** A search returns the [result.data] of the reply. *)
Lemma search_reply remote self path params w dat :
  reply_data (remote (log w) (make_post self path (Some params) None))
  = Some dat →
  fst (search remote self path params w) = Ok dat.
Proof.
  rewrite search_run. cbn [fst]. unfold reply_data, check_response.
  destruct (remote _ _) as [e|r]; [done |].
  case_bool_decide as Hstatus; [done |].
  apply raise_for_status_spec in Hstatus as ->.
  destruct (json r) as [[| | | |?|envelope]|]; try done. cbn.
  destruct (Dict.get "error_code" envelope) as [code|]; [| done]. cbn.
  destruct (truthy code); [done |]. cbn.
  destruct (Dict.get "result" envelope) as [[| | | |?|res]|]; try done. cbn.
  by intros ->.
Qed.

(** ** First match or none *)

Lemma _first_list result_set :
  _first (PList result_set) = Ok (default PNone (head result_set)).
Proof. by destruct result_set. Qed.

(** C7: when the service answers the search of [find_parent_task], or of
    [find_user_by_username], with the result set [result_set], the call
    returns the first element of the result set, and returns [None],
    without raising, when the result set is empty. *)
Theorem find_returns_first_or_none remote self w result_set :
  (∀ subtask_id,
      reply_data (remote (log w)
        (make_post self "maniphest.search"
           (Some [("constraints[subtaskIDs][0]", PInt subtask_id)]) None))
      = Some (PList result_set) →
      fst (find_parent_task remote self subtask_id w)
      = Ok (match result_set with
            | [] => PNone
            | first_task :: _ => first_task
            end))
  ∧ (∀ username,
      reply_data (remote (log w)
        (make_post self "user.search"
           (Some [("constraints[usernames][0]", PStr username)]) None))
      = Some (PList result_set) →
      fst (find_user_by_username remote self username w)
      = Ok (match result_set with
            | [] => PNone
            | first_user :: _ => first_user
            end)).
Proof.
  split; intros x Hreply%search_reply;
    unfold find_parent_task, find_user_by_username, bind;
    destruct (search remote self _ _ w) as [[dat|e] w'] eqn:Hrun;
    simpl in Hreply; simplify_eq; unfold lift; simpl;
    rewrite _first_list; by destruct result_set.
Qed.

(** C7 on a task without a parent, and on a user name that two users
    match. *)
Lemma find_returns_first_or_none_examples :
  fst (find_parent_task (remote_returning 200 (search_body (PList [])))
         example_client 7 empty_world)
  = Ok PNone
  ∧ fst (find_user_by_username
           (remote_returning 200
              (search_body
                 (PList [example_user; PDict [("phid", PStr "PHID-USER-2")]])))
           example_client "alice" empty_world)
    = Ok example_user.
Proof.
  split.
  - apply (find_returns_first_or_none
             (remote_returning 200 (search_body (PList []))) example_client
             empty_world []).
    reflexivity.
  - apply (find_returns_first_or_none
             (remote_returning 200
                (search_body
                   (PList [example_user;
                           PDict [("phid", PStr "PHID-USER-2")]])))
             example_client empty_world
             [example_user; PDict [("phid", PStr "PHID-USER-2")]]).
    reflexivity.
Defined.

(** A result set that is not a list is not read as one: indexing a
    non-empty mapping with 0 raises. *)
Example _first_of_mapping :
  _first (PDict [("cursor", PNone)]) = Raise (KeyError (PInt 0)).
Proof. reflexivity. Qed.

(** ** The current milestone *)

Lemma is_current_milestone_passed_over column :
  passed_over column = true → is_current_milestone column = Ok false.
Proof.
  unfold passed_over, readable_column, proxy_not_hidden, column_field,
    is_current_milestone.
  destruct column as [| | | |?|d]; try done. cbn.
  destruct (Dict.get "fields" d) as [[| | | |?|fields]|]; try done. cbn.
  destruct (Dict.get "proxyPHID" fields) as [proxy|]; [| done]. cbn.
  destruct (truthy proxy); [| done].
  destruct (Dict.get "isHidden" fields) as [hidden|]; [| done]. cbn.
  by destruct (truthy hidden).
Qed.

Lemma is_current_milestone_hit column :
  proxy_not_hidden column = true → is_current_milestone column = Ok true.
Proof.
  unfold proxy_not_hidden, column_field, is_current_milestone.
  destruct column as [| | | |?|d]; try done. cbn.
  destruct (Dict.get "fields" d) as [[| | | |?|fields]|]; try done. cbn.
  destruct (Dict.get "proxyPHID" fields) as [proxy|]; [| done].
  destruct (Dict.get "isHidden" fields) as [hidden|]; [| done]. cbn.
  destruct (truthy proxy); [| done]. cbn. by intros ->.
Qed.

Lemma is_current_milestone_unreadable column :
  readable_column column = false → ∃ e, is_current_milestone column = Raise e.
Proof.
  unfold readable_column, column_field, is_current_milestone.
  destruct column as [| | | |?|d]; try (by eexists). cbn.
  destruct (Dict.get "fields" d) as [[| | | |?|fields]|]; try (by eexists).
  cbn. destruct (Dict.get "proxyPHID" fields) as [proxy|]; [| by eexists].
  cbn. destruct (truthy proxy); [| done].
  destruct (Dict.get "isHidden" fields) as [hidden|]; [done | by eexists].
Qed.

Lemma scan_columns_skip before rest :
  Forall (λ c, is_current_milestone c = Ok false) before →
  scan_columns (before ++ rest) = scan_columns rest.
Proof. induction 1 as [|c before Hc _ IH]; cbn; [done |]. by rewrite Hc. Qed.

Lemma scan_columns_passed_over before rest :
  Forall (λ c, passed_over c = true) before →
  scan_columns (before ++ rest) = scan_columns rest.
Proof.
  intros Hbefore. apply scan_columns_skip.
  eapply Forall_impl; [exact Hbefore |].
  apply is_current_milestone_passed_over.
Qed.

Lemma current_milestone_scan remote self project_phid w columns :
  fst (list_project_columns remote self project_phid w) = Ok (PList columns) →
  fst (get_project_current_milestone remote self project_phid w)
  = scan_columns columns.
Proof.
  intros Hlisting. unfold get_project_current_milestone, bind.
  destruct (list_project_columns remote self project_phid w) as [[dat|e] w'];
    cbn in Hlisting; by simplify_eq.
Qed.

Lemma current_milestone_reply remote self project_phid w columns :
  reply_data (remote (log w)
    (make_post self "project.column.search"
       (Some [("constraints[projects][0]", PStr project_phid)]) None))
  = Some (PList columns) →
  fst (get_project_current_milestone remote self project_phid w)
  = scan_columns columns.
Proof. intros Hreply%search_reply. by apply current_milestone_scan. Qed.

(** C6, as amended: when the service answers the column listing with the
    list [columns], the call returns the first column that is a subproject
    proxy (truthy proxy field) and not hidden, provided the scan can read
    every column before it (each has [fields.proxyPHID], and
    [fields.isHidden] when the proxy field is truthy); it returns [None]
    when no column is a visible proxy and the scan can read every column,
    the empty listing included; it raises at the first column it cannot
    read. *)
Theorem current_milestone_is_first_visible_proxy
    remote self project_phid w columns :
  reply_data (remote (log w)
    (make_post self "project.column.search"
       (Some [("constraints[projects][0]", PStr project_phid)]) None))
  = Some (PList columns) →
  (∀ before column after,
      columns = before ++ column :: after →
      Forall (λ c, passed_over c = true) before →
      proxy_not_hidden column = true →
      fst (get_project_current_milestone remote self project_phid w)
      = Ok column)
  ∧ (Forall (λ c, passed_over c = true) columns →
     fst (get_project_current_milestone remote self project_phid w)
     = Ok PNone)
  ∧ (∀ before column after,
      columns = before ++ column :: after →
      Forall (λ c, passed_over c = true) before →
      readable_column column = false →
      ∃ e, fst (get_project_current_milestone remote self project_phid w)
           = Raise e).
Proof.
  intros Hreply. rewrite (current_milestone_reply _ _ _ _ _ Hreply).
  split_and!.
  - intros before column after -> Hbefore Hhit.
    rewrite scan_columns_passed_over by done. cbn.
    by rewrite is_current_milestone_hit.
  - intros Hall. rewrite <- (app_nil_r columns).
    by rewrite scan_columns_passed_over.
  - intros before column after -> Hbefore Hunreadable.
    rewrite scan_columns_passed_over by done. cbn.
    apply is_current_milestone_unreadable in Hunreadable as [e ->].
    by exists e.
Qed.

(** C6 on a board with a backlog, a hidden old sprint and two open
    sprints: the first open sprint is returned. *)
Lemma current_milestone_is_first_visible_proxy_board :
  fst (get_project_current_milestone
         (remote_returning 200 (search_body (PList example_columns)))
         example_client "PHID-PROJ-1" empty_world)
  = Ok (example_column "Sprint 12" (PStr "PHID-PROJ-12") false).
Proof.
  apply (proj1 (current_milestone_is_first_visible_proxy
                  (remote_returning 200 (search_body (PList example_columns)))
                  example_client "PHID-PROJ-1" empty_world example_columns
                  eq_refl)
           [example_column "Backlog" PNone false;
            example_column "Sprint 11" (PStr "PHID-PROJ-11") true]
           (example_column "Sprint 12" (PStr "PHID-PROJ-12") false)
           [example_column "Sprint 13" (PStr "PHID-PROJ-13") false]).
  - reflexivity.
  - repeat constructor.
  - reflexivity.
Defined.

(** C6 as stated fails: the one column of the listing has no fields, so
    no column is a visible proxy, and the call raises instead of returning
    [None]. *)
Lemma current_milestone_raises_without_fields :
  let columns := [PDict [("phid", PStr "PHID-PCOL-1")]] in
  let result :=
    fst (get_project_current_milestone
           (remote_returning 200 (search_body (PList columns)))
           example_client "PHID-PROJ-1" empty_world) in
  Forall (λ c, proxy_not_hidden c = false) columns
  ∧ result = Raise (KeyError (PStr "fields"))
  ∧ result ≠ Ok PNone.
Proof.
  split_and!; [by repeat constructor | reflexivity | discriminate].
Qed.

(** ** The memoised user lookup *)

Lemma show_user_uncached_log remote self phid w :
  requests_made (snd (show_user_uncached remote self phid w))
  = requests_made w + 1.
Proof.
  unfold show_user_uncached, bind. rewrite search_run.
  destruct (rbind _ _); unfold requests_made, logged; simpl;
    by rewrite length_app.
Qed.

Lemma show_user_hit remote self how phid w user :
  memo w !! (oid self, how, phid) = Some user →
  show_user remote self how phid w = (Ok user, w).
Proof. intros Hhit. unfold show_user. by rewrite Hhit. Qed.

(** C5, as amended: once a call of [show_user] has returned, be it a
    user or [None], a second call on the same client with the same
    identifier, passed the same way, returns the same value and issues no
    request; the two calls issue at most one request in total. *)
Theorem show_user_memoised remote self how phid w user w1 :
  show_user remote self how phid w = (Ok user, w1) →
  show_user remote self how phid w1 = (Ok user, w1)
  ∧ requests_made w1 ≤ requests_made w + 1.
Proof.
  unfold show_user at 1.
  destruct (memo w !! (oid self, how, phid)) as [cached|] eqn:Hmemo.
  - intros [= -> <-]. split; [by apply show_user_hit | lia].
  - pose proof (show_user_uncached_log remote self phid w) as Hlog.
    destruct (show_user_uncached remote self phid w) as [[u|e] w'];
      intros [= -> <-].
    split.
    + apply show_user_hit. simpl. apply lookup_insert_eq.
    + unfold requests_made in *. simpl in *. lia.
Qed.

(** The cache is never invalidated: a request leaves it as it is. *)
Lemma _make_request_keeps_memo remote self path params headers w :
  memo (snd (_make_request remote self path params headers w)) = memo w.
Proof. by rewrite _make_request_run. Qed.

(** C5 on a user that does not exist: the absence is memoised. *)
Lemma show_user_memoised_absent :
  let remote := remote_returning 200 (search_body (PList [])) in
  let w1 := snd (show_user remote example_client Positional "PHID-USER-9"
                   empty_world) in
  show_user remote example_client Positional "PHID-USER-9" w1 = (Ok PNone, w1)
  ∧ requests_made w1 ≤ requests_made empty_world + 1.
Proof.
  intros remote w1.
  apply (show_user_memoised remote example_client Positional "PHID-USER-9"
           empty_world PNone w1).
  reflexivity.
Defined.

(** C5 as stated fails, in two ways. A call that raises memoises nothing,
    so the second call issues a second request, and the two calls do not
    end alike. And a call that returned is not found again when the
    identifier is passed the other way: [show_user(p)] followed by
    [show_user(phid=p)] issues two requests. *)
Lemma show_user_second_call_requests_again :
  (let run1 := show_user remote_flaky example_client Positional "PHID-USER-1"
                 empty_world in
   let run2 := show_user remote_flaky example_client Positional "PHID-USER-1"
                 (snd run1) in
   fst run1 = Raise (RequestFailed (ConnectionError "connection refused"))
   ∧ fst run2 = Ok example_user
   ∧ requests_made (snd run2) = 2
   ∧ ¬ (requests_made (snd run2) ≤ 1))
  ∧ (let remote := remote_returning 200 (search_body (PList [example_user])) in
     let run1 := show_user remote example_client Positional "PHID-USER-1"
                   empty_world in
     let run2 := show_user remote example_client Keyword "PHID-USER-1"
                   (snd run1) in
     fst run1 = Ok example_user
     ∧ fst run2 = Ok example_user
     ∧ requests_made (snd run2) = 2
     ∧ ¬ (requests_made (snd run2) ≤ 1)).
Proof.
  split; cbv zeta.
  - assert (show_user remote_flaky example_client Positional "PHID-USER-1"
              empty_world
            = (Raise (RequestFailed (ConnectionError "connection refused")),
               logged (make_post example_client "user.search"
                 (Some [("constraints[phids][0]", PStr "PHID-USER-1")]) None)
                 empty_world)) as ->.
    { unfold show_user. simpl. by rewrite lookup_empty. }
    simpl. unfold show_user. simpl. rewrite lookup_empty. simpl.
    split_and!; [reflexivity | reflexivity | reflexivity |].
    unfold requests_made. simpl. lia.
  - assert (show_user
              (remote_returning 200 (search_body (PList [example_user])))
              example_client Positional "PHID-USER-1" empty_world
            = (Ok example_user,
               {| log := [make_post example_client "user.search"
                    (Some [("constraints[phids][0]", PStr "PHID-USER-1")])
                    None];
                  memo := {[ (1, Positional, "PHID-USER-1") := example_user ]}
               |})) as ->.
    { unfold show_user. simpl. by rewrite lookup_empty. }
    simpl. unfold show_user. simpl.
    rewrite lookup_singleton_ne by done. simpl.
    split_and!; [reflexivity | reflexivity | reflexivity |].
    unfold requests_made. simpl. lia.
Qed.

(** ** Construction *)

(** [rstrip_slash] removes a run of slashes at the end, and all of it. *)
Lemma rstrip_slash_spec url :
  ∃ n, url = rstrip_slash url +:+ slashes n
       ∧ last_char (rstrip_slash url) ≠ Some "/"%char.
Proof.
  induction url as [|c url (n & Hurl & Hlast)]; simpl.
  - by exists 0.
  - revert Hurl Hlast.
    destruct (rstrip_slash url) as [|a t]; intros -> Hlast.
    + destruct (Ascii.eqb_spec c "/") as [-> | Hc].
      * by exists (S n).
      * exists n. split; [reflexivity | simpl; congruence].
    + exists n. split; [reflexivity | done].
Qed.

Lemma rstrip_slash_empty : rstrip_slash "" = "".
Proof. reflexivity. Qed.

Lemma truthy_PStr s : truthy (PStr s) = true ↔ s ≠ "".
Proof.
  simpl. destruct (String.eqb_spec s ""); simpl; split; (done || congruence).
Qed.

(** C8, as amended: with both variables set, construction succeeds when
    the URL without its trailing slashes and the token are both non-empty,
    and stores that stripped URL; it fails with the configuration error
    when the stripped URL or the token is empty, which an empty URL gives. *)
Theorem construction_checks_stripped_url self_oid environ url tok :
  environ !! "PHABRICATOR_URL" = Some url →
  environ !! "PHABRICATOR_TOKEN" = Some tok →
  (rstrip_slash url ≠ "" → tok ≠ "" →
     __init__ self_oid environ
     = Ok {| oid := self_oid; base_url := rstrip_slash url;
             token := tok; timeout := 5 |})
  ∧ (rstrip_slash url = "" ∨ tok = "" →
     __init__ self_oid environ = Raise (ValueError unset_message))
  ∧ (url = "" → rstrip_slash url = "")
  ∧ (∃ n, url = rstrip_slash url +:+ slashes n
          ∧ last_char (rstrip_slash url) ≠ Some "/"%char).
Proof.
  intros Hurl Htok. unfold __init__. rewrite Hurl, Htok.
  split_and!.
  - intros Hu%truthy_PStr Ht%truthy_PStr. by rewrite Hu, Ht.
  - intros [Hu | Ht].
    + by rewrite Hu.
    + rewrite Ht. simpl. by rewrite orb_true_r.
  - by intros ->.
  - apply rstrip_slash_spec.
Qed.

(** C8 on a URL written with a slash at its end. *)
Lemma construction_checks_stripped_url_wikimedia :
  __init__ 1 (example_environ "https://phabricator.wikimedia.org/" "api-secret")
  = Ok {| oid := 1; base_url := "https://phabricator.wikimedia.org";
          token := "api-secret"; timeout := 5 |}.
Proof.
  apply (construction_checks_stripped_url 1
           (example_environ "https://phabricator.wikimedia.org/" "api-secret")
           "https://phabricator.wikimedia.org/" "api-secret");
    (reflexivity || discriminate).
Defined.

(** C8 as stated fails: the URL ["/"] and the token are not empty, and
    construction fails. *)
Lemma construction_rejects_slash_only_url :
  "/" ≠ "" ∧ "api-secret" ≠ ""
  ∧ __init__ 1 (example_environ "/" "api-secret")
    = Raise (ValueError unset_message)
  ∧ ¬ ∃ self, __init__ 1 (example_environ "/" "api-secret") = Ok self.
Proof.
  assert (__init__ 1 (example_environ "/" "api-secret")
          = Raise (ValueError unset_message)) as Hinit by reflexivity.
  split_and!; [discriminate | discriminate | exact Hinit |].
  intros [self Hok]. rewrite Hinit in Hok. discriminate.
Qed.

(** * Further properties *)

(** ** The layout of a request body *)

Section Layout.
Import Dict DictFacts.
Implicit Types (raw : Dict.t pyval) (k key : string) (i j n : nat).

(** Updating with fresh keys appends them in their order. *)
Lemma update_app {V} (d other : Dict.t V) :
  NoDup (keys other) →
  (∀ k, k ∈ keys other → k ∉ keys d) →
  update d other = d ++ other.
Proof.
  unfold update. revert d.
  induction other as [|[k v] other IH]; intros d Hnd Hfresh; cbn.
  - by rewrite app_nil_r.
  - cbn in Hnd. apply NoDup_cons in Hnd as [Hk Hnd].
    rewrite set_fresh by (apply Hfresh; cbn; left).
    rewrite IH, <- app_assoc; [done | done |].
    intros k' Hk'. unfold keys. rewrite map_app. cbn.
    apply not_elem_of_app. split.
    + apply Hfresh. cbn. by right.
    + intros ->%list_elem_of_singleton. done.
Qed.

Lemma keys_app {V} (d d' : Dict.t V) : keys (d ++ d') = keys d ++ keys d'.
Proof. apply map_app. Qed.

Lemma set_subvalues_app i j l raw :
  (∀ j', j ≤ j' → transaction_subvalue_key i j' ∉ keys raw) →
  set_subvalues i j l raw
  = raw ++ imap (λ n subvalue, (transaction_subvalue_key i (j + n), subvalue)) l.
Proof.
  revert j raw. induction l as [|v l IH]; intros j raw Hfresh; cbn.
  - by rewrite app_nil_r.
  - rewrite set_fresh by (apply Hfresh; lia). rewrite IH.
    + rewrite <- app_assoc, Nat.add_0_r. cbn. do 2 f_equal.
      apply imap_ext. intros n x _. cbn. by rewrite Nat.add_succ_r.
    + intros j' Hj'. rewrite keys_app. apply not_elem_of_app. split.
      * apply Hfresh. lia.
      * cbn. intros Heq%list_elem_of_singleton%subvalue_key_inj. lia.
Qed.

Lemma set_transaction_app i key value raw :
  (∀ r, tkey i r ∉ keys raw) →
  set_transaction i key value raw = raw ++ transaction_fields i key value.
Proof.
  intros Hfresh. unfold set_transaction, transaction_fields.
  assert (set (transaction_type_key i) (PStr key) raw
          = raw ++ [(transaction_type_key i, PStr key)]) as ->
    by (apply set_fresh; rewrite type_key_tkey; apply Hfresh).
  assert (transaction_value_key i
          ∉ keys (raw ++ [(transaction_type_key i, PStr key)])) as Hvalue.
  { rewrite keys_app. apply not_elem_of_app. split.
    - rewrite value_key_tkey. apply Hfresh.
    - cbn. intros Heq%list_elem_of_singleton. by apply value_key_not_type in Heq. }
  destruct value as [| | | |l|];
    try (rewrite set_fresh by exact Hvalue; by rewrite <- app_assoc).
  rewrite set_subvalues_app, <- app_assoc; [done |].
  intros j' _. rewrite keys_app. apply not_elem_of_app. split.
  - rewrite subvalue_key_tkey. apply Hfresh.
  - cbn. intros Heq%list_elem_of_singleton.
    by apply subvalue_key_not_type in Heq.
Qed.

Lemma transaction_fields_keys i key value k :
  k ∈ keys (transaction_fields i key value) → ∃ r, k = tkey i r.
Proof.
  unfold transaction_fields. cbn. intros [-> | Hin]%elem_of_cons.
  - eexists. apply type_key_tkey.
  - destruct value as [| | | |l|];
      try (apply list_elem_of_singleton in Hin as ->;
           eexists; apply value_key_tkey).
    unfold keys in Hin. apply list_elem_of_fmap in Hin as ([k' v] & -> & Hin).
    apply elem_of_lookup_imap in Hin as (j & x & [= -> ->] & _).
    eexists. apply subvalue_key_tkey.
Qed.

Lemma set_transactions_app i items raw :
  (∀ i' r, i ≤ i' → tkey i' r ∉ keys raw) →
  set_transactions i items raw = raw ++ transactions_fields i items.
Proof.
  unfold transactions_fields. revert i raw.
  induction items as [|[key value] items IH]; intros i raw Hfresh.
  - cbn. by rewrite app_nil_r.
  - cbn [set_transactions].
    rewrite set_transaction_app by (intros r; by apply Hfresh).
    rewrite IH.
    + rewrite imap_cons. cbn [concat fst snd].
      rewrite <- app_assoc, Nat.add_0_r. do 3 f_equal.
      apply imap_ext. intros n x _. cbn. by rewrite Nat.add_succ_r.
    + intros i' r Hi'. rewrite keys_app. apply not_elem_of_app. split.
      * apply Hfresh. lia.
      * intros (r' & [Heq _]%tkey_inj)%transaction_fields_keys. lia.
Qed.

Lemma create_or_edit_params_layout params task_id :
  create_or_edit_params params task_id
  = transactions_fields 0 params ++ object_identifier_fields task_id.
Proof.
  assert (set_transactions 0 params [] = transactions_fields 0 params) as Hset.
  { rewrite set_transactions_app; [done |]. intros i' r _. apply not_elem_of_nil. }
  assert (get "objectIdentifier" (set_transactions 0 params []) = None)
    as Hnone.
  { rewrite set_transactions_frame; [done |].
    intros i' r _. apply tkey_not_object_identifier. }
  unfold create_or_edit_params, object_identifier_fields, task_id_truthy, truthy.
  destruct task_id as [z|]; [| by rewrite Hset, app_nil_r].
  destruct (z =? 0)%Z; cbn; [by rewrite Hset, app_nil_r |].
  apply get_None in Hnone. by rewrite set_fresh, Hset.
Qed.

Lemma request_data_layout self raw :
  NoDup (keys raw) →
  get "api.token" raw = None → get "output" raw = None →
  request_data self (Some raw) = base_fields self ++ raw.
Proof.
  intros Hnd Htoken%get_None Houtput%get_None. unfold request_data.
  replace (or_empty (Some raw)) with raw by (by destruct raw).
  cbn [set String.eqb Ascii.eqb Bool.eqb].
  apply (update_app (base_fields self) raw); [done |].
  intros k Hk. cbn. rewrite !not_elem_of_cons.
  split_and!; [by intros -> | by intros -> | apply not_elem_of_nil].
Qed.

Lemma phids_constraint_key_inj i i' :
  phids_constraint_key i = phids_constraint_key i' → i = i'.
Proof.
  unfold phids_constraint_key. intros [= Heq].
  apply digits_split in Heq as [Hi _];
    [| apply digits_only_dec | apply digits_only_dec | reflexivity].
  by apply dec_inj.
Qed.

Lemma set_phid_constraints_app i phids raw :
  (∀ i', i ≤ i' → phids_constraint_key i' ∉ keys raw) →
  set_phid_constraints i phids raw = raw ++ phids_fields i phids.
Proof.
  unfold phids_fields. revert i raw.
  induction phids as [|phid phids IH]; intros i raw Hfresh; cbn.
  - by rewrite app_nil_r.
  - rewrite set_fresh by (apply Hfresh; lia). rewrite IH.
    + rewrite <- app_assoc, Nat.add_0_r. cbn. do 2 f_equal.
      apply imap_ext. intros n x _. cbn. by rewrite Nat.add_succ_r.
    + intros i' Hi'. rewrite keys_app. apply not_elem_of_app. split.
      * apply Hfresh. lia.
      * cbn. intros Heq%list_elem_of_singleton%phids_constraint_key_inj. lia.
Qed.

End Layout.

Lemma create_or_edit_params_get_other params task_id k :
  (∀ i r, k ≠ tkey i r) → k ≠ "objectIdentifier" →
  Dict.get k (create_or_edit_params params task_id) = None.
Proof.
  intros Hk Hobj.
  assert (Dict.get k (set_transactions 0 params []) = None) as Hnone
    by (rewrite set_transactions_frame; [done | intros; apply Hk]).
  unfold create_or_edit_params. destruct task_id as [z|]; [| done].
  destruct (task_id_truthy (Some z)); [| done].
  by rewrite DictFacts.get_set_ne.
Qed.

Lemma create_or_edit_params_no_base params task_id :
  Dict.get "api.token" (create_or_edit_params params task_id) = None
  ∧ Dict.get "output" (create_or_edit_params params task_id) = None.
Proof.
  split; apply create_or_edit_params_get_other;
    (discriminate || (intros; unfold tkey; discriminate)).
Qed.

Lemma create_or_edit_data self params task_id :
  request_data self (Some (create_or_edit_params params task_id))
  = base_fields self ++ transactions_fields 0 params
    ++ object_identifier_fields task_id.
Proof.
  destruct (create_or_edit_params_no_base params task_id) as [Htoken Houtput].
  rewrite request_data_layout by (done || apply NoDup_create_or_edit_params).
  by rewrite create_or_edit_params_layout.
Qed.

Lemma show_projects_params_layout phids :
  show_projects_params phids = phids_fields 0 phids.
Proof.
  unfold show_projects_params. rewrite set_phid_constraints_app; [done |].
  intros i' _. apply not_elem_of_nil.
Qed.

Lemma show_projects_data self phids :
  request_data self (Some (show_projects_params phids))
  = base_fields self ++ phids_fields 0 phids.
Proof.
  assert (∀ k, (∀ i, k ≠ phids_constraint_key i) →
               Dict.get k (show_projects_params phids) = None) as Hother.
  { intros k Hk. apply DictFacts.get_None.
    rewrite show_projects_params_layout. unfold phids_fields, Dict.keys.
    intros ([k' v] & -> & Hin)%list_elem_of_fmap.
    apply elem_of_lookup_imap in Hin as (n & x & [= -> ->] & _).
    by apply (Hk n). }
  rewrite request_data_layout.
  - by rewrite show_projects_params_layout.
  - apply NoDup_show_projects_params.
  - apply Hother. intros i. unfold phids_constraint_key. discriminate.
  - apply Hother. intros i. unfold phids_constraint_key. discriminate.
Qed.

(** X1: the body of [create_or_edit_task] is, in this order, the token
    and the output format, then for each entry of the parameters its type
    field followed by its value field (or, for a list, by one indexed field
    per element), then [objectIdentifier] when the task id is given and not
    zero; nothing else, and the request goes to [maniphest.edit]. *)
Theorem create_or_edit_task_body remote self params task_id w :
  ∃ req,
    log (snd (create_or_edit_task remote self params task_id w))
    = log w ++ [req]
    ∧ url req = base_url self +:+ "/api/maniphest.edit"
    ∧ data req = base_fields self ++ transactions_fields 0 params
                 ++ object_identifier_fields task_id.
Proof.
  eexists. rewrite create_or_edit_task_run.
  split_and!; [reflexivity | reflexivity | apply create_or_edit_data].
Qed.

Example create_or_edit_task_body_mixed :
  base_fields example_client
  ++ transactions_fields 0
       [("title", PStr "Fix login");
        ("subscribers", PList [PStr "PHID-A"; PStr "PHID-B"]);
        ("projects", PList []);
        ("priority", PInt 80)]
  ++ object_identifier_fields (Some 42%Z)
  = [("api.token", PStr "api-secret"); ("output", PStr "json");
     ("transactions[0][type]", PStr "title");
     ("transactions[0][value]", PStr "Fix login");
     ("transactions[1][type]", PStr "subscribers");
     ("transactions[1][value][0]", PStr "PHID-A");
     ("transactions[1][value][1]", PStr "PHID-B");
     ("transactions[2][type]", PStr "projects");
     ("transactions[3][type]", PStr "priority");
     ("transactions[3][value]", PInt 80);
     ("objectIdentifier", PInt 42)].
Proof. reflexivity. Qed.

(** X2: the body of [show_projects] is the token and the output format
    followed by one field [constraints[phids][i]] per identifier, in the
    order of the identifiers, and the request goes to [project.search]. *)
Theorem show_projects_body remote self phids w :
  ∃ req,
    log (snd (show_projects remote self phids w)) = log w ++ [req]
    ∧ url req = base_url self +:+ "/api/project.search"
    ∧ data req = base_fields self ++ phids_fields 0 phids.
Proof.
  eexists. unfold show_projects. rewrite search_run.
  split_and!; [reflexivity | reflexivity | apply show_projects_data].
Qed.

(** X3: [mark_task_as_resolved], [move_task_to_column] and
    [assign_task_to_user] send one transaction, of type status, column and
    owner, and the task id as [objectIdentifier]; for the task id 0 they
    send the transaction without an [objectIdentifier], the body of a
    creation. *)
Theorem task_edits_body remote self task_id w :
  (∃ req,
      log (snd (mark_task_as_resolved remote self task_id w)) = log w ++ [req]
      ∧ data req = base_fields self
                   ++ [("transactions[0][type]", PStr "status");
                       ("transactions[0][value]", PStr "resolved")]
                   ++ object_identifier_fields (Some task_id))
  ∧ (∀ column_phid, ∃ req,
      log (snd (move_task_to_column remote self task_id column_phid w))
      = log w ++ [req]
      ∧ data req = base_fields self
                   ++ [("transactions[0][type]", PStr "column");
                       ("transactions[0][value]", PStr column_phid)]
                   ++ object_identifier_fields (Some task_id))
  ∧ (∀ user_phid, ∃ req,
      log (snd (assign_task_to_user remote self task_id user_phid w))
      = log w ++ [req]
      ∧ data req = base_fields self
                   ++ transaction_fields 0 "owner" user_phid
                   ++ object_identifier_fields (Some task_id))
  ∧ object_identifier_fields (Some 0%Z) = object_identifier_fields None.
Proof.
  split_and!; [| intros column_phid | intros user_phid | reflexivity];
    eexists;
    unfold mark_task_as_resolved, move_task_to_column, assign_task_to_user;
    rewrite create_or_edit_task_run;
    (split; [reflexivity |]);
    cbn [data make_post]; rewrite create_or_edit_data;
    unfold transactions_fields; cbn [imap concat fst snd Nat.add];
    by rewrite ?app_nil_r.
Qed.

(** X4: whatever headers the caller of [_make_request] passes, the
    request has the form-encoding [Content-Type], and the caller's other
    headers as given. *)
Theorem content_type_is_forced remote self path params caller_headers w :
  ∃ req,
    log (snd (_make_request remote self path params (Some caller_headers) w))
    = log w ++ [req]
    ∧ ∀ k, Dict.get k (headers req)
           = if String.eqb k "Content-Type"
             then Some "application/x-www-form-urlencoded"
             else Dict.get k caller_headers.
Proof.
  eexists. rewrite _make_request_run. split; [reflexivity |].
  intros k. cbn [headers make_post].
  replace (or_empty (Some caller_headers)) with caller_headers
    by (by destruct caller_headers).
  rewrite DictFacts.get_update by (apply NoDup_singleton).
  cbn. by destruct (String.eqb k "Content-Type").
Qed.

(** X5: the parameters of a call are merged over the token and the output
    format: a parameter named [api.token] or [output] replaces the client's
    value, and every other parameter is sent as given. *)
Theorem params_override_base_fields remote self path params w :
  NoDup (Dict.keys params) →
  ∃ req,
    log (snd (_make_request remote self path (Some params) None w))
    = log w ++ [req]
    ∧ ∀ k, Dict.get k (data req)
           = match Dict.get k params with
             | Some v => Some v
             | None => Dict.get k (base_fields self)
             end.
Proof.
  intros Hnd. eexists. rewrite _make_request_run. split; [reflexivity |].
  intros k. by apply request_data_get.
Qed.

(** X5 on a caller that passes its own token. *)
Lemma params_override_base_fields_token :
  ∃ req,
    log (snd (_make_request remote_down example_client "user.whoami"
                (Some [("api.token", PStr "other-secret")]) None empty_world))
    = log empty_world ++ [req]
    ∧ ∀ k, Dict.get k (data req)
           = match Dict.get k [("api.token", PStr "other-secret")] with
             | Some v => Some v
             | None => Dict.get k (base_fields example_client)
             end.
Proof.
  apply (params_override_base_fields remote_down example_client "user.whoami"
           [("api.token", PStr "other-secret")] empty_world).
  apply NoDup_singleton.
Defined.

Example caller_token_replaces_client_token :
  data (make_post example_client "user.whoami"
          (Some [("api.token", PStr "other-secret")]) None)
  = [("api.token", PStr "other-secret"); ("output", PStr "json")].
Proof. reflexivity. Qed.

(** ** What a request returns and how it fails *)

(** X6: [_make_request] returns a value exactly when the service answered
    with a status outside 400..599 and a JSON mapping whose error-code
    field is present and falsy; the value is that mapping. *)
Theorem make_request_returns_iff remote self path params headers w body :
  fst (_make_request remote self path params headers w) = Ok body
  ↔ ∃ r d error_code,
      remote (log w) (make_post self path params headers) = PostReturns r
      ∧ ¬ (400 ≤ status_code r < 600)%Z
      ∧ json r = Some body
      ∧ body = PDict d
      ∧ Dict.get "error_code" d = Some error_code
      ∧ truthy error_code = false.
Proof.
  rewrite _make_request_run. cbn [fst]. unfold check_response. split.
  - destruct (remote _ _) as [e|r]; [done |].
    destruct (raise_for_status r) eqn:Hstatus; [done |].
    destruct (json r) as [resp_json|] eqn:Hjson; [| done].
    destruct resp_json as [| | | |?|d]; try done. cbn.
    destruct (Dict.get "error_code" d) as [error_code|] eqn:Hcode; [| done].
    cbn. destruct (truthy error_code) eqn:Htruthy; [done |].
    intros [= <-]. exists r, d, error_code.
    by split_and!; [| apply raise_for_status_spec | | | |].
  - intros (r & d & error_code & -> & Hstatus%raise_for_status_spec
            & Hjson & -> & Hcode & Htruthy).
    rewrite Hstatus, Hjson. cbn. rewrite Hcode. cbn. by rewrite Htruthy.
Qed.

(** X7: [_make_request] raises the wrapped transport failure exactly when
    [session.post] raised, when the status is in 400..599, or when the
    body is not JSON; the cause it carries is that exception. *)
Theorem make_request_transport_failure_iff
    remote self path params headers w cause :
  fst (_make_request remote self path params headers w)
  = Raise (RequestFailed cause)
  ↔ remote (log w) (make_post self path params headers) = PostRaises cause
    ∨ ∃ r, remote (log w) (make_post self path params headers) = PostReturns r
           ∧ ((400 ≤ status_code r < 600)%Z
              ∧ cause = HTTPError (status_code r)
              ∨ ¬ (400 ≤ status_code r < 600)%Z
                ∧ json r = None ∧ cause = JSONDecodeError).
Proof.
  rewrite _make_request_run. cbn [fst].
  destruct (remote _ _) as [e|r].
  - cbn. split; [intros [= ->]; by left |].
    intros [[= ->] | (r & [=] & _)]. done.
  - destruct (decide (400 ≤ status_code r < 600)%Z) as [Hin | Hout].
    + rewrite check_response_http_error by done. split.
      * intros [= <-]. right. exists r. split; [done |]. by left.
      * intros [[=] | (r' & [= <-] & [[_ ->] | [? _]])]; done.
    + pose proof Hout as Hstatus%raise_for_status_spec.
      unfold check_response. rewrite Hstatus.
      destruct (json r) as [resp_json|] eqn:Hjson.
      * split.
        -- destruct resp_json as [| | | |?|d]; try done. cbn.
           destruct (Dict.get "error_code" d) as [code|]; [| done].
           cbn. by destruct (truthy code).
        -- intros [[=] | (r' & [= <-] & [[? _] | (_ & ? & _)])]; [done |].
           congruence.
      * split.
        -- intros [= <-]. right. exists r. split; [done |]. by right.
        -- intros [[=] | (r' & [= <-] & [[? _] | (_ & _ & ->)])]; done.
Qed.

(** ** One task *)

Lemma show_task_search remote self task_id w :
  fst (show_task remote self task_id w)
  = (try dat <- fst (search remote self "maniphest.search"
                       [("constraints[ids][0]", PInt task_id);
                        ("attachments[subscribers]", PStr "true");
                        ("attachments[projects]", PStr "true");
                        ("attachments[columns]", PStr "true")] w);
     getitem0 dat).
Proof.
  unfold show_task, bind. rewrite search_run, _make_request_run. cbn [fst].
  destruct (check_response _) as [resp|e]; [| done]. cbn.
  destruct (getitem resp "result") as [res|e]; [| done]. cbn.
  by destruct (getitem res "data").
Qed.

(** X8: when the search of [show_task] yields the list [result_set],
    [show_task] returns its first task, and raises [IndexError] when the
    list is empty, where [find_parent_task] would return [None]. *)
Theorem show_task_first_or_index_error remote self task_id w result_set :
  fst (search remote self "maniphest.search"
         [("constraints[ids][0]", PInt task_id);
          ("attachments[subscribers]", PStr "true");
          ("attachments[projects]", PStr "true");
          ("attachments[columns]", PStr "true")] w)
  = Ok (PList result_set) →
  fst (show_task remote self task_id w)
  = match result_set with
    | [] => Raise IndexError
    | task :: _ => Ok task
    end.
Proof.
  intros Hsearch. rewrite show_task_search, Hsearch. by destruct result_set.
Qed.

(** X8 on a task that does not exist. *)
Lemma show_task_first_or_index_error_missing :
  fst (show_task (remote_returning 200 (search_body (PList [])))
         example_client 7 empty_world)
  = Raise IndexError.
Proof.
  apply (show_task_first_or_index_error
           (remote_returning 200 (search_body (PList []))) example_client 7
           empty_world []).
  reflexivity.
Defined.

(** ** Calls, one after the other *)

Section Calls.
Variable remote : list request -> request -> post_outcome.

Lemma bind_lift_snd {A B} (m : M A) (g : A -> result B) w :
  snd (bind m (λ a, lift (g a)) w) = snd (m w).
Proof. unfold bind, lift. by destruct (m w) as [[a|e] w']. Qed.

Lemma search_snd self path params w :
  snd (search remote self path params w)
  = logged (make_post self path (Some params) None) w.
Proof. by rewrite search_run. Qed.

Lemma show_user_uncached_snd self phid w :
  snd (show_user_uncached remote self phid w)
  = logged (make_post self "user.search"
              (Some [("constraints[phids][0]", PStr phid)]) None) w.
Proof. unfold show_user_uncached. by rewrite bind_lift_snd, search_snd. Qed.

(** Unless it is answered from the cache, a call posts the parameters of
    its method to its procedure. *)
Lemma run_call_log self c w :
  memo_hit self c w = false →
  log (snd (run_call remote self c w))
  = log w ++ [make_post self (procedure c) (call_params c) None].
Proof.
  intros Hmiss.
  destruct c; cbn [run_call procedure call_params];
    try (unfold get_project_current_milestone, show_task, find_subtasks,
           find_parent_task, show_projects, current_user,
           find_user_by_username, list_project_columns, move_task_to_column,
           mark_task_as_resolved, assign_task_to_user;
         rewrite ?bind_lift_snd, ?search_snd, ?create_or_edit_task_run,
           ?_make_request_run; reflexivity).
  unfold show_user. cbn in Hmiss.
  destruct (memo w !! (oid self, how, phid)); [done |].
  pose proof (show_user_uncached_snd self phid w) as Hsnd.
  destruct (show_user_uncached remote self phid w) as [[user|e] w'];
    cbn in Hsnd; by subst w'.
Qed.

Lemma run_call_hit self c w :
  memo_hit self c w = true →
  ∃ how phid user, c = ShowUser how phid
                   ∧ memo w !! (oid self, how, phid) = Some user
                   ∧ run_call remote self c w = (Ok user, w).
Proof.
  destruct c; try done. cbn.
  destruct (memo w !! (oid self, how, phid)) as [user|] eqn:Hmemo; [| done].
  intros _. exists how, phid, user. split_and!; [done | done |].
  by apply show_user_hit.
Qed.

Lemma run_call_memo self c w :
  memo (snd (run_call remote self c w))
  = match c, fst (run_call remote self c w) with
    | ShowUser how phid, Ok user =>
        <[(oid self, how, phid) := user]> (memo w)
    | _, _ => memo w
    end.
Proof.
  destruct c; cbn [run_call];
    try (unfold get_project_current_milestone, show_task, find_subtasks,
           find_parent_task, show_projects, current_user,
           find_user_by_username, list_project_columns, move_task_to_column,
           mark_task_as_resolved, assign_task_to_user;
         rewrite ?bind_lift_snd, ?search_snd, ?create_or_edit_task_run,
           ?_make_request_run; reflexivity).
  unfold show_user.
  destruct (memo w !! (oid self, how, phid)) as [cached|] eqn:Hmemo.
  - cbn. by rewrite insert_id.
  - pose proof (show_user_uncached_snd self phid w) as Hsnd.
    destruct (show_user_uncached remote self phid w) as [[user|e] w'];
      cbn in Hsnd; by subst w'.
Qed.

Lemma run_call_keeps_memo self c w key user :
  memo w !! key = Some user →
  memo (snd (run_call remote self c w)) !! key = Some user.
Proof.
  intros Hkey. rewrite run_call_memo.
  destruct c; try done.
  destruct (memo_hit self (ShowUser how phid) w) eqn:Hhit.
  - apply run_call_hit in Hhit as (how' & phid' & cached & [= <- <-] & Hmemo & ->).
    cbn. by rewrite insert_id.
  - destruct (fst _); [| done].
    rewrite lookup_insert_ne; [done |]. intros <-.
    cbn in Hhit. by rewrite Hkey in Hhit.
Qed.

Lemma run_calls_keep_memo calls w key user :
  memo w !! key = Some user →
  memo (run_calls remote calls w) !! key = Some user.
Proof.
  revert w. induction calls as [|[self c] calls IH]; intros w Hkey; cbn;
    [done |].
  by apply IH, run_call_keeps_memo.
Qed.

End Calls.

(** X9: a call of a public method issues exactly one request, to the
    procedure of the method under [base_url/api/]; the one exception is a
    [show_user] whose key, made of the client, the way the identifier is
    passed and the identifier, is memoised: it leaves the world as it
    is. *)
Theorem call_issues_one_request remote self c w :
  if memo_hit self c w
  then snd (run_call remote self c w) = w
  else ∃ req,
         log (snd (run_call remote self c w)) = log w ++ [req]
         ∧ url req = base_url self +:+ "/api/" +:+ procedure c
         ∧ requests_made (snd (run_call remote self c w))
           = requests_made w + 1.
Proof.
  destruct (memo_hit self c w) eqn:Hhit.
  - by apply (run_call_hit remote) in Hhit as (how & phid & user & _ & _ & ->).
  - eexists. split_and!; [by apply run_call_log | reflexivity |].
    unfold requests_made. rewrite run_call_log by done.
    by rewrite length_app.
Qed.

Lemma call_data self c :
  request_data self (call_params c)
  = base_fields self ++ default [] (call_params c).
Proof.
  destruct c; try reflexivity; cbn [call_params default];
    try (rewrite create_or_edit_data; by rewrite create_or_edit_params_layout).
  rewrite show_projects_data. by rewrite show_projects_params_layout.
Qed.

(** X10: the request of every call of a public method has the
    form-encoding [Content-Type] as its only header, the timeout of the
    client, and a body that opens with the client's token and
    [output=json], followed by the parameters of the method: no method
    overrides the token or the output format. *)
Theorem call_request_shape remote self c w :
  memo_hit self c w = false →
  ∃ req,
    log (snd (run_call remote self c w)) = log w ++ [req]
    ∧ headers req = [("Content-Type", "application/x-www-form-urlencoded")]
    ∧ req_timeout req = timeout self
    ∧ data req = base_fields self ++ default [] (call_params c)
    ∧ Dict.get "api.token" (data req) = Some (PStr (token self))
    ∧ Dict.get "output" (data req) = Some (PStr "json").
Proof.
  intros Hmiss. eexists.
  split_and!; [by apply run_call_log | reflexivity | reflexivity | | |];
    cbn [data make_post]; rewrite call_data; reflexivity.
Qed.

(** X10 on the first [show_user] of a program. *)
Lemma call_request_shape_show_user :
  ∃ req,
    log (snd (run_call remote_down example_client
                (ShowUser Positional "PHID-USER-1") empty_world))
    = log empty_world ++ [req]
    ∧ headers req = [("Content-Type", "application/x-www-form-urlencoded")]
    ∧ req_timeout req = timeout example_client
    ∧ data req = base_fields example_client
                 ++ default [] (call_params (ShowUser Positional "PHID-USER-1"))
    ∧ Dict.get "api.token" (data req) = Some (PStr (token example_client))
    ∧ Dict.get "output" (data req) = Some (PStr "json").
Proof.
  apply (call_request_shape remote_down example_client
           (ShowUser Positional "PHID-USER-1") empty_world).
  reflexivity.
Defined.

(** X11: the cache of [show_user] is never invalidated: once a call has
    returned, the same call returns the same value without a request
    after any sequence of calls, by this client or by others. *)
Theorem show_user_memo_persists remote self how phid w user w1 calls :
  show_user remote self how phid w = (Ok user, w1) →
  show_user remote self how phid (run_calls remote calls w1)
  = (Ok user, run_calls remote calls w1).
Proof.
  intros Hfirst. apply show_user_hit, run_calls_keep_memo.
  pose proof (run_call_memo remote self (ShowUser how phid) w) as Hmemo.
  cbn in Hmemo. rewrite Hfirst in Hmemo. cbn in Hmemo.
  rewrite Hmemo. apply lookup_insert_eq.
Qed.

(** X11 with failing calls and a call of another client in between. *)
Lemma show_user_memo_persists_flaky :
  let other := {| oid := 2; base_url := "https://phabricator.example.org";
                  token := "api-secret"; timeout := 5 |} in
  let calls := [(example_client, FindSubtasks 7);
                (other, ShowUser Positional "PHID-USER-1");
                (example_client, ShowUser Keyword "PHID-USER-1");
                (example_client, ShowUser Positional "PHID-USER-2")] in
  let w1 := snd (show_user (remote_returning 200
                              (search_body (PList [example_user])))
                   example_client Positional "PHID-USER-1" empty_world) in
  show_user (remote_returning 200 (search_body (PList [example_user])))
    example_client Positional "PHID-USER-1"
    (run_calls (remote_returning 200 (search_body (PList [example_user])))
       calls w1)
  = (Ok example_user,
     run_calls (remote_returning 200 (search_body (PList [example_user])))
       calls w1).
Proof.
  intros other calls w1.
  apply (show_user_memo_persists
           (remote_returning 200 (search_body (PList [example_user])))
           example_client Positional "PHID-USER-1" empty_world example_user w1
           calls).
  reflexivity.
Defined.

(** X12: a call changes the cache only when it is a [show_user] that
    returns, and then only at the key made of the identity of its client,
    the way the identifier was passed and the identifier, which it maps to
    the value returned; the keys of the other ways of passing the same
    identifier are not written. A call that raises, and a call of any
    other method, leave the cache as it is. *)
Theorem call_memo_update remote self c w :
  memo (snd (run_call remote self c w))
  = match c, fst (run_call remote self c w) with
    | ShowUser how phid, Ok user =>
        <[(oid self, how, phid) := user]> (memo w)
    | _, _ => memo w
    end.
Proof. apply run_call_memo. Qed.

(** X13: a program of [n] calls issues at most [n] requests, and the
    requests made before it stay at the front of the log, in their order. *)
Theorem run_calls_log_bound remote calls w :
  log w `prefix_of` log (run_calls remote calls w)
  ∧ requests_made (run_calls remote calls w)
    ≤ requests_made w + length calls.
Proof.
  revert w. induction calls as [|[self c] calls IH]; intros w; cbn.
  - split; [done | lia].
  - destruct (IH (snd (run_call remote self c w))) as [Hprefix Hcount].
    destruct (memo_hit self c w) eqn:Hhit.
    + apply (run_call_hit remote) in Hhit as (how & phid & user & _ & _ & Hrun).
      rewrite Hrun in *. cbn in *. split; [done | lia].
    + pose proof (run_call_log remote self c w Hhit) as Hlog. split.
      * etrans; [| exact Hprefix]. rewrite Hlog. by apply prefix_app_r.
      * unfold requests_made in *. rewrite Hlog, length_app in Hcount.
        cbn in Hcount. lia.
Qed.

(** ** Columns that are not read, columns that cannot be read *)

Lemma is_current_milestone_not_proxy column proxy :
  column_field "proxyPHID" column = Some proxy → truthy proxy = false →
  is_current_milestone column = Ok false.
Proof.
  unfold column_field, is_current_milestone.
  destruct column as [| | | |?|d]; try done. cbn.
  destruct (Dict.get "fields" d) as [[| | | |?|fields]|]; try done. cbn.
  intros Hproxy Hfalsy. rewrite Hproxy. cbn. by rewrite Hfalsy.
Qed.

(** X14: the scan reads no more than it needs: a column whose
    [proxyPHID] is falsy is passed over whether it has an [isHidden] field
    or not, and the columns after the first visible proxy are not read at
    all, so neither can make the call fail. *)
Theorem current_milestone_reads_lazily
    remote self project_phid w before column after :
  fst (list_project_columns remote self project_phid w)
  = Ok (PList (before ++ column :: after)) →
  Forall (λ c, ∃ proxy, column_field "proxyPHID" c = Some proxy
                        ∧ truthy proxy = false) before →
  proxy_not_hidden column = true →
  fst (get_project_current_milestone remote self project_phid w) = Ok column.
Proof.
  intros Hlisting Hbefore Hhit.
  rewrite (current_milestone_scan _ _ _ _ _ Hlisting), scan_columns_skip.
  - cbn. by rewrite is_current_milestone_hit.
  - eapply Forall_impl; [exact Hbefore |].
    intros c (proxy & Hproxy & Hfalsy).
    by eapply is_current_milestone_not_proxy.
Qed.

(** X14 on a backlog column without [isHidden], an open sprint, and an
    entry after it that is not a column. *)
Lemma current_milestone_reads_lazily_board :
  let backlog := PDict [("fields", PDict [("proxyPHID", PNone)])] in
  let sprint := example_column "Sprint 12" (PStr "PHID-PROJ-12") false in
  fst (get_project_current_milestone
         (remote_returning 200 (search_body (PList [backlog; sprint; PNone])))
         example_client "PHID-PROJ-1" empty_world)
  = Ok sprint.
Proof.
  intros backlog sprint.
  apply (current_milestone_reads_lazily
           (remote_returning 200 (search_body (PList [backlog; sprint; PNone])))
           example_client "PHID-PROJ-1" empty_world [backlog] sprint [PNone]).
  - reflexivity.
  - repeat constructor. by exists PNone.
  - reflexivity.
Defined.

(** X15: a column without a [fields] entry makes the call raise
    [KeyError] for [fields] when the scan reaches it, that is when every
    column before it could be read and was passed over (its [proxyPHID]
    is falsy, or it is a proxy with a truthy [isHidden]); what follows the
    column does not matter: a later column that would qualify is not
    returned. *)
Theorem current_milestone_fails_on_column_without_fields
    remote self project_phid w before d after :
  reply_data (remote (log w)
    (make_post self "project.column.search"
       (Some [("constraints[projects][0]", PStr project_phid)]) None))
  = Some (PList (before ++ PDict d :: after)) →
  Forall (λ c, passed_over c = true) before →
  Dict.get "fields" d = None →
  fst (get_project_current_milestone remote self project_phid w)
  = Raise (KeyError (PStr "fields")).
Proof.
  intros Hreply Hbefore Hfields.
  rewrite (current_milestone_reply _ _ _ _ _ Hreply).
  rewrite scan_columns_passed_over by done.
  cbn. unfold is_current_milestone. cbn. by rewrite Hfields.
Qed.

(** X15 on a listing whose second entry has no fields and whose third is
    an open sprint. *)
Lemma current_milestone_fails_on_column_without_fields_board :
  let backlog := example_column "Backlog" PNone false in
  let sprint := example_column "Sprint 12" (PStr "PHID-PROJ-12") false in
  fst (get_project_current_milestone
         (remote_returning 200
            (search_body (PList [backlog; PDict [("phid", PStr "PHID-PCOL-2")];
                                 sprint])))
         example_client "PHID-PROJ-1" empty_world)
  = Raise (KeyError (PStr "fields")).
Proof.
  intros backlog sprint.
  apply (current_milestone_fails_on_column_without_fields
           (remote_returning 200
              (search_body (PList [backlog; PDict [("phid", PStr "PHID-PCOL-2")];
                                   sprint])))
           example_client "PHID-PROJ-1" empty_world
           [backlog] [("phid", PStr "PHID-PCOL-2")] [sprint]).
  - reflexivity.
  - repeat constructor.
  - reflexivity.
Defined.

(** ** Construction, again *)

Lemma rstrip_slash_slashes n : rstrip_slash (slashes n) = "".
Proof. induction n as [|n IH]; cbn; [done |]. by rewrite IH. Qed.

Lemma rstrip_slash_app_slashes url n :
  rstrip_slash (url +:+ slashes n) = rstrip_slash url.
Proof.
  induction url as [|c url IH].
  - apply rstrip_slash_slashes.
  - change (String c url +:+ slashes n) with (String c (url +:+ slashes n)).
    cbn [rstrip_slash]. by rewrite IH.
Qed.

(** X16: a variable that is not set makes construction raise [KeyError]
    for that variable, not the configuration error; the URL is read first,
    and a missing token is reported even when the URL is empty. *)
Theorem construction_missing_variable self_oid environ :
  (environ !! "PHABRICATOR_URL" = None →
     __init__ self_oid environ = Raise (KeyError (PStr "PHABRICATOR_URL")))
  ∧ (is_Some (environ !! "PHABRICATOR_URL") →
     environ !! "PHABRICATOR_TOKEN" = None →
     __init__ self_oid environ = Raise (KeyError (PStr "PHABRICATOR_TOKEN"))).
Proof.
  unfold __init__. split.
  - by intros ->.
  - intros [url ->] ->. done.
Qed.

(** X16 on an environment that only has an empty URL. *)
Lemma construction_missing_variable_token :
  __init__ 1 {["PHABRICATOR_URL" := ""]}
  = Raise (KeyError (PStr "PHABRICATOR_TOKEN")).
Proof.
  apply (construction_missing_variable 1 {["PHABRICATOR_URL" := ""]}).
  - by eexists.
  - reflexivity.
Defined.

(** X17: every client that construction returns has a non-empty base URL
    that does not end in a slash and is the configured URL without its
    trailing slashes, the configured token, which is not empty, and the
    timeout 5. *)
Theorem constructed_client_invariant self_oid environ self :
  __init__ self_oid environ = Ok self →
  base_url self ≠ ""
  ∧ last_char (base_url self) ≠ Some "/"%char
  ∧ (∃ url n, environ !! "PHABRICATOR_URL" = Some url
              ∧ url = base_url self +:+ slashes n)
  ∧ environ !! "PHABRICATOR_TOKEN" = Some (token self)
  ∧ token self ≠ ""
  ∧ timeout self = 5%Z
  ∧ oid self = self_oid.
Proof.
  unfold __init__.
  destruct (environ !! "PHABRICATOR_URL") as [url|]; [| done].
  destruct (environ !! "PHABRICATOR_TOKEN") as [tok|]; [| done].
  destruct (truthy (PStr (rstrip_slash url))) eqn:Hurl; [| done].
  destruct (truthy (PStr tok)) eqn:Htok; [| done].
  intros [= <-]. cbn.
  apply truthy_PStr in Hurl, Htok.
  destruct (rstrip_slash_spec url) as (n & Hsplit & Hlast).
  split_and!; try done. by exists url, n.
Qed.

(** X17 on a URL written with two slashes at its end. *)
Lemma constructed_client_invariant_wikimedia :
  let self := {| oid := 1; base_url := "https://phabricator.wikimedia.org";
                 token := "api-secret"; timeout := 5 |} in
  base_url self ≠ ""
  ∧ last_char (base_url self) ≠ Some "/"%char
  ∧ (∃ url n,
        example_environ "https://phabricator.wikimedia.org//" "api-secret"
          !! "PHABRICATOR_URL" = Some url
        ∧ url = base_url self +:+ slashes n)
  ∧ example_environ "https://phabricator.wikimedia.org//" "api-secret"
      !! "PHABRICATOR_TOKEN" = Some (token self)
  ∧ token self ≠ ""
  ∧ timeout self = 5%Z
  ∧ oid self = 1.
Proof.
  intros self.
  apply (constructed_client_invariant 1
           (example_environ "https://phabricator.wikimedia.org//" "api-secret")
           self).
  reflexivity.
Defined.

(** X18: trailing slashes of the configured URL do not matter:
    construction gives the same client, or the same failure, with and
    without them. *)
Theorem construction_ignores_trailing_slashes self_oid environ url n :
  __init__ self_oid (<["PHABRICATOR_URL" := url +:+ slashes n]> environ)
  = __init__ self_oid (<["PHABRICATOR_URL" := url]> environ).
Proof.
  unfold __init__. rewrite !lookup_insert_eq, !lookup_insert_ne by done.
  by rewrite rstrip_slash_app_slashes.
Qed.
